(** * Acrylic.py: the metrics core of the acrylic-marker sales dashboard

    A shallow embedding of [src/Acrylic.py].  The script reads one workbook
    with pandas, derives a few columns ([ASP], [Unit_Price], the per-ASIN
    count [在榜月数] and the score [稳定性评分]), filters by brand and feeds
    group-by / pivot tables to the charts.

    Modelling conventions
    - a DataFrame is a list of row records, in row order; a column that the
      script adds is a field of the record;
    - cleaned numeric columns are exact rationals ([Q]): rounding of IEEE
      doubles is not modelled.  What a float division can produce beyond a
      finite number (the infinities and NaN) is modelled by [num];
    - exceptions are values of [exn] in the error monad [result]; the
      [try]/[except] of [load_data_local] is a [match] on that result;
    - what Streamlit shows is the list of messages and the optional
      dashboard that [script] returns: [st.stop()] is the [None] dashboard;
    - the identifying cells ([ASIN], [Brand], [Date], the categorical
      labels) are present in every row, and the columns that the script
      reads after the load are in the sheet; [st.cache_data] is not
      modelled: one run of the script makes one call of the loader. *)

From Stdlib Require Import List String Ascii Bool Arith ZArith QArith Lia.
From Stdlib Require Import DecimalString Permutation Sorted.
Import ListNotations.

Set Implicit Arguments.

Local Open Scope string_scope.
Local Open Scope list_scope.

(* ------------------------------------------------------------------------- *)
(** ** Float values *)

(** A float64 cell: a finite value, one of the two infinities, or NaN.
    NaN is also pandas' marker for a missing value. *)
Inductive num : Type :=
| Fin (q : Q)
| PInf
| NInf
| NaN.

(** The value of [x / 0] for a finite [x]: an infinity carrying the sign of
    [x], or NaN for 0/0. *)
Definition over_zero (x : Q) : num :=
  match (x ?= 0)%Q with
  | Gt => PInf
  | Lt => NInf
  | Eq => NaN
  end.

(** Element-wise [/] of two numeric columns (numpy true division): a zero
    divisor raises nothing. *)
Definition ndiv (a b : num) : num :=
  match a, b with
  | NaN, _ | _, NaN => NaN
  | Fin x, Fin y => if Qeq_bool y 0 then over_zero x else Fin (x / y)
  | Fin _, (PInf | NInf) => Fin 0
  | PInf, Fin y => if Qle_bool 0 y then PInf else NInf
  | NInf, Fin y => if Qle_bool 0 y then NInf else PInf
  | (PInf | NInf), (PInf | NInf) => NaN
  end.

Definition nadd (a b : num) : num :=
  match a, b with
  | NaN, _ | _, NaN => NaN
  | Fin x, Fin y => Fin (x + y)
  | PInf, NInf | NInf, PInf => NaN
  | PInf, _ | _, PInf => PInf
  | NInf, _ | _, NInf => NInf
  end.

Definition nopp (a : num) : num :=
  match a with
  | Fin x => Fin (- x)
  | PInf => NInf
  | NInf => PInf
  | NaN => NaN
  end.

Definition nsub (a b : num) : num := nadd a (nopp b).

(** Equality of float values, up to the representation of the rational. *)
Definition num_eq (a b : num) : Prop :=
  match a, b with
  | Fin x, Fin y => (x == y)%Q
  | PInf, PInf | NInf, NInf | NaN, NaN => True
  | _, _ => False
  end.

(** [lo <= a <= hi] for a float value; false for NaN and the infinities. *)
Definition num_between (lo hi : Q) (a : num) : Prop :=
  match a with
  | Fin x => (lo <= x)%Q /\ (x <= hi)%Q
  | _ => False
  end.

(** The sum of a column of finite values. *)
Definition sumQ (l : list Q) : Q := fold_right Qplus 0%Q l.

(** The sum of float values by plain addition: no value is skipped. *)
Definition nsum (l : list num) : num := fold_right nadd (Fin 0) l.

(* ------------------------------------------------------------------------- *)
(** ** Group keys *)

(** What pandas needs of a group key: equality, to form the groups, and an
    order, to sort the group labels. *)
Class Key (K : Type) : Type := {
  keqb : K -> K -> bool;
  kleb : K -> K -> bool
}.

#[export] Instance Key_string : Key string := {
  keqb := String.eqb;
  kleb := String.leb
}.

#[export] Instance Key_Z : Key Z := {
  keqb := Z.eqb;
  kleb := Z.leb
}.

(** Tuples compare component-wise and sort lexicographically. *)
#[export] Instance Key_pair {A B : Type} `{Key A} `{Key B} : Key (A * B) := {
  keqb x y := keqb (fst x) (fst y) && keqb (snd x) (snd y);
  kleb x y :=
    if keqb (fst x) (fst y) then kleb (snd x) (snd y) else kleb (fst x) (fst y)
}.

(** The equality test of a key decides equality. *)
Class KeyLaws {K : Type} (HK : Key K) : Prop := {
  keqb_eq : forall a b : K, keqb a b = true <-> a = b
}.

(** [Series.unique()]: the distinct values, in order of first appearance. *)
Fixpoint unique {K : Type} `{Key K} (l : list K) : list K :=
  match l with
  | [] => []
  | x :: t => x :: filter (fun y => negb (keqb x y)) (unique t)
  end.

Fixpoint insert_sorted {K : Type} `{Key K} (x : K) (l : list K) : list K :=
  match l with
  | [] => [x]
  | y :: t => if kleb x y then x :: y :: t else y :: insert_sorted x t
  end.

(** [sorted(...)]. *)
Definition sorted {K : Type} `{Key K} (l : list K) : list K :=
  fold_right insert_sorted [] l.

(** The sorted distinct labels: the index of a group-by result. *)
Definition sort_unique {K : Type} `{Key K} (l : list K) : list K :=
  sorted (unique l).

(** [Series.nunique()]. *)
Definition nunique {K : Type} `{Key K} (l : list K) : nat :=
  List.length (unique l).

(** [Series.isin(values)]. *)
Definition isin {K : Type} `{Key K} (x : K) (values : list K) : bool :=
  existsb (keqb x) values.

(* ------------------------------------------------------------------------- *)
(** ** Python values and [str] *)

(** What a cell of an [object] column can hold after [read_excel]. *)
Inductive pyval : Type :=
| PyStr (s : string)
| PyNaN                    (* an empty cell: float('nan') *)
| PyNone
| PyBool (b : bool)
| PyInt (z : Z)
| PyFloat (q : Q)          (* a finite float *)
| PyInf (negative : bool)
| PyDatetime (year month day hour minute second : Z).

(** [str] of an integer: its decimal digits, after a minus sign when it is
    negative. *)
Definition str_Z (z : Z) : string := NilZero.string_of_int (Z.to_int z).

(** A field of a date or a time, on two digits. *)
Definition two_digits (z : Z) : string :=
  ((if (z <? 10)%Z then "0" else "") ++ str_Z z)%string.

(** Python's [c in s] on strings: [c] occurs in [s] as a substring. *)
Fixpoint contains (c s : string) : bool :=
  prefix c s ||
  match s with
  | EmptyString => false
  | String _ s' => contains c s'
  end.

(** Every character of [s] is one of the characters of [alphabet]. *)
Definition chars_within (alphabet s : string) : bool :=
  forallb (fun c => existsb (Ascii.eqb c) (list_ascii_of_string alphabet))
          (list_ascii_of_string s).

(** The characters of the [repr] of a finite float: digits, the point, the
    signs and the exponent mark. *)
Definition float_alphabet : string := "0123456789.-+e".

(** The characters of [str(x)] for an [x] that is not a string. *)
Definition plain_alphabet : string := "0123456789.-+einfaNoTruFls: ".

(** The propositional reading of "occurs as a substring". *)
Definition substring_of (c s : string) : Prop :=
  exists pre post : string, s = (pre ++ c ++ post)%string.

(** Line 172: the closed list of solid-colour names. *)
Definition solid_colors : list string :=
  ["White"; "Black"; "Gold"; "Silver"; "Metallic"].

Section Classifier.

(** [repr] of a finite float is CPython's shortest round-trip printer; it is
    taken as a parameter. *)
Variable float_repr : Q -> string.

(** [str(x)]. *)
Definition py_str (x : pyval) : string :=
  match x with
  | PyStr s => s
  | PyNaN => "nan"
  | PyNone => "None"
  | PyBool true => "True"
  | PyBool false => "False"
  | PyInt z => str_Z z
  | PyFloat q => float_repr q
  | PyInf false => "inf"
  | PyInf true => "-inf"
  | PyDatetime y mo d h mi sec =>
      (str_Z y ++ "-" ++ two_digits mo ++ "-" ++ two_digits d ++ " "
       ++ two_digits h ++ ":" ++ two_digits mi ++ ":" ++ two_digits sec)%string
  end.

(** Line 172:
    ['Independent' if any(c in str(x) for c in [...]) else 'Assorted']. *)
Definition Color_Type (x : pyval) : string :=
  if existsb (fun c => contains c (py_str x)) solid_colors
  then "Independent"
  else "Assorted".

End Classifier.

(* ------------------------------------------------------------------------- *)
(** ** Exceptions *)

Inductive exn : Type :=
| FileNotFoundError
| KeyError (column : string)
| ValueError (what : string)
| OtherError (what : string).

(** A computation that returns a value or raises. *)
Definition result (A : Type) : Type := (exn + A)%type.

Definition ret {A : Type} (a : A) : result A := inr a.
Definition raise {A : Type} (e : exn) : result A := inl e.

Definition bind {A B : Type} (m : result A) (k : A -> result B) : result B :=
  match m with
  | inl e => inl e
  | inr a => k a
  end.

Notation "x <- m ;; k" := (bind m (fun x => k))
  (at level 61, m at next level, right associativity).
Notation "m ;;; k" := (bind m (fun _ => k))
  (at level 61, right associativity).

Fixpoint mapM {A B : Type} (f : A -> result B) (l : list A) : result (list B) :=
  match l with
  | [] => ret []
  | a :: t => b <- f a ;; bs <- mapM f t ;; ret (b :: bs)
  end.

(* ------------------------------------------------------------------------- *)
(** ** The workbook *)

(** One row of the sheet as [read_excel] returns it.  [ASIN], [Brand] and
    the two categorical labels are text; [Date] is the integer YYYYMM; a
    numeric cell is [Some q] when pandas reads a number there and [None]
    when the cell is blank or text that [to_numeric] cannot parse. *)
Record raw_row : Type := {
  raw_ASIN : string;
  raw_Brand : string;
  raw_Date : Z;
  raw_Amount : option Q;
  raw_Sales : option Q;
  raw_Price : option Q;
  raw_Rate : option Q;
  raw_产品支数 : option Q;
  raw_Ink_Color : pyval;
  raw_出墨方式 : string;
  raw_价格档位 : string
}.

(** The sheet: the column names of its header line and its rows.  The cells
    of a column that the header does not name do not exist: the loader asks
    for the column ([col]) before it reads them. *)
Record sheet : Type := {
  columns : list string;
  rows : list raw_row
}.

(** What is at a path. *)
Inductive file : Type :=
| Absent
| Unreadable (why : string)
| Workbook (sh : sheet).

Definition filesystem : Type := string -> file.

(** Line 14. *)
Definition EXCEL_FILE : string := "丙烯笔打标总表.xlsx".

(** [pd.read_excel(file_path)]. *)
Definition read_excel (fs : filesystem) (file_path : string) : result sheet :=
  match fs file_path with
  | Absent => raise FileNotFoundError
  | Unreadable why => raise (OtherError why)
  | Workbook sh => ret sh
  end.

(** [df[name]]: a [KeyError] when the sheet has no such column. *)
Definition col (sh : sheet) (name : string) : result unit :=
  if isin name (columns sh) then ret tt else raise (KeyError name).

(** [pd.to_datetime(d, format='%Y%m')] on one cell: four digits of year and
    a month, written [01]..[12] or [1]..[9]; anything else is a
    [ValueError].  The result is (year, month).  The range of years that a
    pandas timestamp can hold is not modelled. *)
Definition to_datetime (d : Z) : result (Z * Z) :=
  if (100000 <=? d)%Z && (d <=? 999999)%Z then
    if (1 <=? d mod 100)%Z && (d mod 100 <=? 12)%Z
    then ret ((d / 100)%Z, (d mod 100)%Z)
    else raise (ValueError (str_Z d))
  else if (10000 <=? d)%Z && (d <=? 99999)%Z then
    if (1 <=? d mod 10)%Z
    then ret ((d / 10)%Z, (d mod 10)%Z)
    else raise (ValueError (str_Z d))
  else raise (ValueError (str_Z d)).

(** [.dt.to_period('M').astype(str)]: ["2024-03"]. *)
Definition period_M (t : Z * Z) : string :=
  (str_Z (fst t) ++ "-" ++ two_digits (snd t))%string.

(** [.dt.to_period('Q').astype(str)]: ["2024Q1"]. *)
Definition period_Q (t : Z * Z) : string :=
  (str_Z (fst t) ++ "Q" ++ str_Z ((snd t - 1) / 3 + 1))%string.

(** [pd.to_numeric(c, errors='coerce').fillna(0)] on one cell. *)
Definition to_numeric_fillna0 (c : option Q) : Q :=
  match c with
  | Some q => q
  | None => 0%Q
  end.

(** A row of [df] after lines 23-35. *)
Record row : Type := {
  ASIN : string;
  Brand : string;
  Date : Z;
  Date_Obj : Z * Z;
  Date_Str : string;
  Quarter : string;
  Year : Z;
  Amount : Q;
  Sales : Q;
  Price : Q;
  Rate : Q;
  产品支数 : Q;
  ASP : num;
  Unit_Price : num;
  Ink_Color : pyval;
  出墨方式 : string;
  价格档位 : string
}.

(** A row of [df] after the merge of lines 43-44. *)
Record scored_row : Type := {
  base :> row;
  在榜月数 : option nat;
  稳定性评分 : num
}.

Definition numeric_cols : list string :=
  ["Amount"; "Sales"; "Price"; "Rate"; "产品支数"].

(** Lines 24-35 on one row whose date parsed to [t]. *)
Definition derived (r : raw_row) (t : Z * Z) : row :=
  let amount := to_numeric_fillna0 (raw_Amount r) in
  let sales := to_numeric_fillna0 (raw_Sales r) in
  let price := to_numeric_fillna0 (raw_Price r) in
  let rate := to_numeric_fillna0 (raw_Rate r) in
  let count := to_numeric_fillna0 (raw_产品支数 r) in
  {| ASIN := raw_ASIN r;
     Brand := raw_Brand r;
     Date := raw_Date r;
     Date_Obj := t;
     Date_Str := period_M t;
     Quarter := period_Q t;
     Year := fst t;
     Amount := amount;
     Sales := sales;
     Price := price;
     Rate := rate;
     产品支数 := count;
     ASP := ndiv (Fin amount) (Fin sales);
     Unit_Price := ndiv (Fin price) (Fin count);
     Ink_Color := raw_Ink_Color r;
     出墨方式 := raw_出墨方式 r;
     价格档位 := raw_价格档位 r |}.

(** Lines 23-35 on one row: the only step that can raise is the parse of
    the date. *)
Definition derive (r : raw_row) : result row :=
  t <- to_datetime (raw_Date r) ;;
  ret (derived r t).

(** [df.groupby(key)[c].count()]: per group label, in sorted order, the
    number of rows of the group (no cell of [c] is null here). *)
Definition groupby_count {R K : Type} `{Key K} (key : R -> K) (df : list R)
  : list (K * nat) :=
  map (fun k => (k, List.length (filter (fun r => keqb (key r) k) df)))
      (sort_unique (map key df)).

(** Looking a label up in a keyed table. *)
Fixpoint lookup {K V : Type} `{Key K} (k : K) (t : list (K * V)) : option V :=
  match t with
  | [] => None
  | (k', v) :: t' => if keqb k k' then Some v else lookup k t'
  end.

(** An integer as a float value. *)
Definition of_nat (n : nat) : num := Fin (inject_Z (Z.of_nat n)).

(** Lines 43-44 on one row: the left merge on [ASIN] (a label the right
    table lacks gives a missing value) and the score. *)
Definition score (asin_counts : list (string * nat)) (total : nat) (r : row)
  : scored_row :=
  let months := lookup (ASIN r) asin_counts in
  {| base := r;
     在榜月数 := months;
     稳定性评分 := match months with
                   | Some k => ndiv (of_nat k) (of_nat total)
                   | None => NaN
                   end |}.

(** The body of the [try] of [load_data_local], lines 20-46. *)
Definition load_data_body (fs : filesystem) (file_path : string)
  : result (list scored_row * nat) :=
  sh <- read_excel fs file_path ;;
  col sh "Date" ;;;
  df <- mapM derive (rows sh) ;;
  mapM (col sh) numeric_cols ;;;
  let total_months_in_dataset := nunique (map Date df) in
  col sh "ASIN" ;;;
  let asin_counts := groupby_count ASIN df in
  ret (map (score asin_counts total_months_in_dataset) df,
       total_months_in_dataset).

(** What the script shows besides the charts. *)
Module st.
Inductive message : Type :=
| error (e : exn)
| warning (text : string)
| info (total_periods : nat).
End st.

(** [load_data_local], lines 17-52: the messages it shows and what it
    returns.  Either [except] clause shows the error and returns the empty
    table and 0. *)
Definition load_data_local (fs : filesystem) (file_path : string)
  : list st.message * (list scored_row * nat) :=
  match load_data_body fs file_path with
  | inr r => ([], r)
  | inl e => ([st.error e], ([], 0%nat))
  end.

(* ------------------------------------------------------------------------- *)
(** ** Aggregation primitives *)

(** [df.groupby(key)[val].sum()]: per group label, in sorted order, the sum
    of [val] over the rows of the group. *)
Definition groupby_sum {R K : Type} `{Key K} (key : R -> K) (val : R -> Q)
  (df : list R) : list (K * Q) :=
  map (fun k => (k, sumQ (map val (filter (fun r => keqb (key r) k) df))))
      (sort_unique (map key df)).

(** A two-dimensional table: row labels, column labels and the cells, one
    list per row label. *)
Record frame (I C V : Type) : Type := {
  index : list I;
  header : list C;
  values : list (list V)
}.

(** [s.unstack(fill_value=fill)] of a series keyed by pairs: the first
    components label the rows, the second ones the columns, and a pair that
    the series lacks gets [fill]. *)
Definition unstack {I C : Type} `{Key I} `{Key C} (fill : Q)
  (s : list ((I * C) * Q)) : frame I C Q :=
  let idx := sort_unique (map (fun e => fst (fst e)) s) in
  let hdr := sort_unique (map (fun e => snd (fst e)) s) in
  {| index := idx;
     header := hdr;
     values := map (fun i =>
                 map (fun c => match lookup (i, c) s with
                               | Some v => v
                               | None => fill
                               end) hdr) idx |}.

(** [f.sum(axis=1)]: the total of each row. *)
Definition sum_axis1 {I C : Type} (f : frame I C Q) : list Q :=
  map sumQ (values f).

(** [f.div(totals, axis=0)]: every cell divided by the total of its row. *)
Definition div_axis0 {I C : Type} (f : frame I C Q) (totals : list Q)
  : frame I C num :=
  {| index := index f;
     header := header f;
     values := map (fun rt => map (fun x => ndiv (Fin x) (Fin (snd rt))) (fst rt))
                   (combine (values f) totals) |}.

(** [f.shift(periods)]: the rows move down by [periods]; the rows that
    enter at the top are missing. *)
Definition shift {I C : Type} (periods : nat) (f : frame I C Q)
  : list (list num) :=
  firstn (List.length (values f))
         (repeat (repeat NaN (List.length (header f))) periods
          ++ map (map Fin) (values f)).

(** [f.pct_change(periods)], that is [f / f.shift(periods) - 1]. *)
Definition pct_change {I C : Type} (periods : nat) (f : frame I C Q)
  : frame I C num :=
  {| index := index f;
     header := header f;
     values := map (fun cp =>
                 map (fun xp => nsub (ndiv (Fin (fst xp)) (snd xp)) (Fin 1))
                     (combine (fst cp) (snd cp)))
                 (combine (values f) (shift periods f)) |}.

(* ------------------------------------------------------------------------- *)
(** ** The script *)

(** Line 66. *)
Definition all_brands (df : list scored_row) : list string :=
  sorted (unique (map (fun r : scored_row => Brand r) df)).

(** Line 68: [df[df['Brand'].isin(selected_brands)]]. *)
Definition df_filtered (df : list scored_row) (selected_brands : list string)
  : list scored_row :=
  filter (fun r : scored_row => isin (Brand r) selected_brands) df.

(** The period-by-category matrix of summed amounts:
    [df.groupby([period, category])['Amount'].sum().unstack(fill_value=0)]. *)
Definition pivot_sum {I C : Type} `{Key I} `{Key C}
  (period : scored_row -> I) (category : scored_row -> C)
  (df : list scored_row) : frame I C Q :=
  unstack 0 (groupby_sum (fun r => (period r, category r))
                         (fun r : scored_row => Amount r) df).

(** Line 103. *)
Definition q_data (df : list scored_row) : frame string string Q :=
  pivot_sum (fun r : scored_row => Quarter r) (fun r : scored_row => Brand r) df.

(** Line 108. *)
Definition y_data (df : list scored_row) : frame Z string Q :=
  pivot_sum (fun r : scored_row => Year r) (fun r : scored_row => Brand r) df.

(** The tables behind the panels. *)
Record dashboard : Type := {
  monthly_sales : list ((string * string) * Q);     (* line 80 *)
  year_ink : list ((Z * string) * Q);               (* line 88 *)
  q_yoy : frame string string num;                  (* line 105 *)
  q_share : frame string string num;                (* line 106 *)
  y_share : frame Z string num;                     (* line 109 *)
  price_q : list ((string * string) * Q);           (* line 146 *)
  price_tbl : frame string Z Q;                     (* line 149 *)
  c_trend : list ((string * string) * Q)            (* line 173 *)
}.

Section Script.

Variable float_repr : Q -> string.

(** Lines 76-174, for the table [df] and the brands chosen in the sidebar.
    Each field is computed from the table that the script names on that
    line: [df_filtered] on lines 80 and 88, [df] on the others. *)
Definition render (df : list scored_row) (selected_brands : list string)
  : dashboard :=
  let filtered := df_filtered df selected_brands in
  {| monthly_sales :=
       groupby_sum (fun r : scored_row => (Date_Str r, Brand r))
                   (fun r : scored_row => Amount r) filtered;
     year_ink :=
       groupby_sum (fun r : scored_row => (Year r, 出墨方式 r))
                   (fun r : scored_row => Amount r) filtered;
     q_yoy := pct_change 4 (q_data df);
     q_share := div_axis0 (q_data df) (sum_axis1 (q_data df));
     y_share := div_axis0 (y_data df) (sum_axis1 (y_data df));
     price_q :=
       groupby_sum (fun r : scored_row => (Quarter r, 价格档位 r))
                   (fun r : scored_row => Amount r) df;
     price_tbl :=
       pivot_sum (fun r : scored_row => 价格档位 r)
                 (fun r : scored_row => Year r) df;
     c_trend :=
       groupby_sum (fun r : scored_row =>
                      (Date_Str r, Color_Type float_repr (Ink_Color r)))
                   (fun r : scored_row => Amount r) df |}.

(** [df.empty]. *)
Definition empty (df : list scored_row) : bool :=
  match df with
  | [] => true
  | _ :: _ => false
  end.

(** The whole script, lines 55-174: the messages shown and the dashboard,
    [None] when [st.stop()] ended the run before any panel. *)
Definition script (fs : filesystem) (selected_brands : list string)
  : list st.message * option dashboard :=
  let '(shown, (df, total_periods)) := load_data_local fs EXCEL_FILE in
  if empty df then
    (shown ++ [st.warning "数据表为空，请检查 Excel 文件内容。"], None)
  else
    (shown ++ [st.info total_periods], Some (render df selected_brands)).

End Script.

(* ------------------------------------------------------------------------- *)
(** ** What the specification measures the code against *)

(** The rows of one ASIN. *)
Definition rows_of (asin : string) (df : list row) : list row :=
  filter (fun r => keqb (ASIN r) asin) df.

(** The number of distinct month-periods in which [asin] appears. *)
Definition distinct_months (asin : string) (df : list row) : nat :=
  nunique (map Date_Obj (rows_of asin df)).

(** The number of distinct month-periods present anywhere in the table. *)
Definition distinct_periods (df : list row) : nat :=
  nunique (map Date_Obj df).



(** The month-period of a raw date; (0, 0) when it does not parse. *)
Definition month_of (d : Z) : Z * Z :=
  match to_datetime d with
  | inr t => t
  | inl _ => (0%Z, 0%Z)
  end.

(** The total of [Amount] over the rows of one period and one category. *)
Definition cell_total {I C : Type} `{Key I} `{Key C}
  (period : scored_row -> I) (category : scored_row -> C) (p : I) (c : C)
  (df : list scored_row) : Q :=
  sumQ (map (fun r : scored_row => Amount r)
            (filter (fun r => keqb (period r, category r) (p, c)) df)).

(** The total of [Amount] over the rows of one period, without pivoting. *)
Definition period_total {K : Type} `{Key K} (period : scored_row -> K) (p : K)
  (df : list scored_row) : Q :=
  sumQ (map (fun r : scored_row => Amount r)
            (filter (fun r => keqb (period r) p) df)).

(* ------------------------------------------------------------------------- *)
(** ** Sample workbooks *)

(** The header line of a complete sheet. *)
Definition full_header : list string :=
  ["Date"; "Brand"; "ASIN"; "Amount"; "Sales"; "Price"; "Rate"; "产品支数";
   "Ink_Color"; "出墨方式"; "价格档位"].

(** A row with the given identifiers, revenue and units; the other cells
    are the same in every sample row. *)
Definition sample_row (asin brand : string) (date : Z) (amount sales : Q)
  : raw_row :=
  {| raw_ASIN := asin;
     raw_Brand := brand;
     raw_Date := date;
     raw_Amount := Some amount;
     raw_Sales := Some sales;
     raw_Price := Some 12%Q;
     raw_Rate := Some 4%Q;
     raw_产品支数 := Some 24%Q;
     raw_Ink_Color := PyStr "Assorted Colors";
     raw_出墨方式 := "Pump";
     raw_价格档位 := "10-20" |}.

(** The file system that holds [sh] at [EXCEL_FILE] and nothing else. *)
Definition disk (sh : sheet) : filesystem :=
  fun path => if String.eqb path EXCEL_FILE then Workbook sh else Absent.

(** The file system without the workbook. *)
Definition empty_disk : filesystem := fun _ => Absent.

(** ASIN A1 has three rows in January 2024; A2 has one row in February. *)
Definition repeated_sheet : sheet :=
  {| columns := full_header;
     rows := [sample_row "A1" "Ohuhu" 202401 50 5;
              sample_row "A1" "Ohuhu" 202401 30 3;
              sample_row "A1" "Ohuhu" 202401 20 2;
              sample_row "A2" "Posca" 202402 40 4] |}.

(** Two brands in the same quarter. *)
Definition two_brand_sheet : sheet :=
  {| columns := full_header;
     rows := [sample_row "A1" "Ohuhu" 202401 10 1;
              sample_row "A2" "Posca" 202402 20 2] |}.

(** One ASIN over six consecutive quarters. *)
Definition six_quarter_sheet : sheet :=
  {| columns := full_header;
     rows := [sample_row "A1" "Ohuhu" 202401 10 1;
              sample_row "A1" "Ohuhu" 202404 20 2;
              sample_row "A1" "Ohuhu" 202407 30 3;
              sample_row "A1" "Ohuhu" 202410 40 4;
              sample_row "A1" "Ohuhu" 202501 15 1;
              sample_row "A1" "Ohuhu" 202504 0 0] |}.

(** A finite float printed with one digit after the point; used where a
    concrete printer is needed. *)
Definition one_digit_repr (q : Q) : string :=
  let tenths := (Z.abs (Qnum q) * 10 / Zpos (Qden q))%Z in
  ((if (Qnum q <? 0)%Z then "-" else "")
   ++ str_Z (tenths / 10) ++ "." ++ str_Z (tenths mod 10))%string.

(* ------------------------------------------------------------------------- *)
(** ** Further panels and laws *)

(** The metric chart of line 93 and the ASIN table of lines 118-138.  The
    at-risk list of line 141 sorts on one column with the default sort of
    [sort_values], which fixes no order among ties; it is not modelled. *)

(** The order of a key is a total order. *)
Class KeyOrder {K : Type} (HK : Key K) : Prop := {
  kleb_total : forall a b : K, kleb a b = true \/ kleb b a = true;
  kleb_trans : forall a b c : K,
    kleb a b = true -> kleb b c = true -> kleb a c = true;
  kleb_antisym : forall a b : K, kleb a b = true -> kleb b a = true -> a = b
}.



(** The mean of the values of a group: their sum over their number. *)
Definition mean (l : list Q) : num :=
  ndiv (Fin (sumQ l)) (of_nat (List.length l)).



(** A float column as a group key: equal numbers form one group. *)
#[export] Instance Key_Q : Key Q := {
  keqb := Qeq_bool;
  kleb := Qle_bool
}.

(** A row of the table together with the two further columns of the sheet
    that lines 118-141 read. *)
Record listing : Type := {
  scored :> scored_row;
  是否双头 : string;
  笔头类型 : string
}.

(** Line 118: the group key of the ASIN table. *)
Definition attr_key (r : listing)
  : string * string * string * string * Q * string :=
  (ASIN r, Brand r, 是否双头 r, 出墨方式 r, 产品支数 r, 笔头类型 r).

(** The ['max'] of a column that may hold missing values: the largest
    value present, missing when none is. *)
Fixpoint max_months (l : list (option nat)) : option nat :=
  match l with
  | [] => None
  | None :: t => max_months t
  | Some x :: t =>
      match max_months t with
      | Some y => Some (Nat.max x y)
      | None => Some x
      end
  end.

(** A row of [asin_attr] after [reset_index()]: the six key columns and the
    four aggregates. *)
Record asin_attr_row : Type := {
  attr_ASIN : string;
  attr_Brand : string;
  attr_是否双头 : string;
  attr_出墨方式 : string;
  attr_产品支数 : Q;
  attr_笔头类型 : string;
  attr_在榜月数 : option nat;
  attr_Amount : Q;
  attr_Price : num;
  attr_Rate : num
}.

(** The aggregates of one group, lines 119-122. *)
Definition aggregate (k : string * string * string * string * Q * string)
  (group : list listing) : asin_attr_row :=
  let '(asin, brand, dual, ink, count, tip) := k in
  {| attr_ASIN := asin;
     attr_Brand := brand;
     attr_是否双头 := dual;
     attr_出墨方式 := ink;
     attr_产品支数 := count;
     attr_笔头类型 := tip;
     attr_在榜月数 := max_months (map (fun r : listing => 在榜月数 r) group);
     attr_Amount := sumQ (map (fun r : listing => Amount r) group);
     attr_Price := mean (map (fun r : listing => Price r) group);
     attr_Rate := mean (map (fun r : listing => Rate r) group) |}.

(** Lines 118-123, on the filtered table. *)
Definition asin_attr (filtered : list listing) : list asin_attr_row :=
  map (fun k => aggregate k (filter (fun r => keqb (attr_key r) k) filtered))
      (sort_unique (map attr_key filtered)).

(** Descending order on (在榜月数, Amount), a missing 在榜月数 last: [a]
    does not come after [b]. *)
Definition ranks_before (a b : asin_attr_row) : bool :=
  match attr_在榜月数 a, attr_在榜月数 b with
  | Some x, Some y =>
      if (x =? y)%nat then Qle_bool (attr_Amount b) (attr_Amount a)
      else (y <? x)%nat
  | Some _, None => true
  | None, Some _ => false
  | None, None => Qle_bool (attr_Amount b) (attr_Amount a)
  end.

Fixpoint insert_ranked (a : asin_attr_row) (l : list asin_attr_row)
  : list asin_attr_row :=
  match l with
  | [] => [a]
  | b :: t => if ranks_before a b then a :: b :: t else b :: insert_ranked a t
  end.

(** [sort_values(by=['在榜月数', 'Amount'], ascending=False)]: a stable
    sort, rows that tie on both columns keep their order. *)
Definition sort_by_months_amount_desc (l : list asin_attr_row)
  : list asin_attr_row :=
  fold_right insert_ranked [] l.

(** Line 138: the twenty most stable ASINs. *)
Definition top_stable (filtered : list listing) : list asin_attr_row :=
  firstn 20 (sort_by_months_amount_desc (asin_attr filtered)).

(** A sample of the filtered table with its two further columns. *)
Definition sample_listings : list listing :=
  map (fun r => {| scored := r; 是否双头 := "Yes"; 笔头类型 := "Fine" |})
      (fst (snd (load_data_local (disk repeated_sheet) EXCEL_FILE))).

(** The place of a quarter in time, counted in quarters from the first
    quarter of the year 1000. *)
Definition quarter_number (t : Z * Z) : Z :=
  (4 * (fst t - 1000) + (snd t - 1) / 3)%Z.

(** The label of the quarter that stands at a place in time. *)
Definition quarter_label (i : Z) : string :=
  period_Q ((1000 + i / 4)%Z, (3 * (i mod 4) + 1)%Z).

(** Each of the [n] quarter labels from place [i] on sorts strictly before
    the label of the next place. *)
Fixpoint labels_ascend (i : Z) (n : nat) : bool :=
  match n with
  | O => true
  | S n' =>
      String.ltb (quarter_label i) (quarter_label (i + 1)) &&
      labels_ascend (i + 1) n'
  end.

(* ========================================================================= *)
(** * Properties *)

(** ** Laws of group keys *)

#[export] Instance KeyLaws_string : KeyLaws Key_string.
Proof. constructor; exact String.eqb_eq. Qed.

#[export] Instance KeyLaws_Z : KeyLaws Key_Z.
Proof. constructor; exact Z.eqb_eq. Qed.

#[export] Instance KeyLaws_pair {A B : Type} {HA : Key A} {HB : Key B}
  {LA : KeyLaws HA} {LB : KeyLaws HB} : KeyLaws (@Key_pair A B HA HB).
Proof.
  constructor; intros [a b] [c d]; simpl.
  rewrite andb_true_iff, !keqb_eq.
  split; [intros [-> ->]; reflexivity | intro E; inversion E; auto].
Qed.

Section KeyFacts.

Context {K : Type} {HK : Key K} {LK : KeyLaws HK}.

Lemma keqb_spec (a b : K) : reflect (a = b) (keqb a b).
Proof. apply iff_reflect. symmetry. apply keqb_eq. Qed.

Lemma keqb_refl (a : K) : keqb a a = true.
Proof. apply keqb_eq; reflexivity. Qed.

Lemma keqb_neq (a b : K) : keqb a b = false <-> a <> b.
Proof. destruct (keqb_spec a b); split; congruence. Qed.

Lemma In_unique (x : K) (l : list K) : In x (unique l) <-> In x l.
Proof.
  induction l as [| a t IH]; simpl; [tauto |].
  rewrite filter_In, IH, negb_true_iff, keqb_neq.
  destruct (keqb_spec a x) as [-> | Hne]; [tauto |].
  split; [tauto | intros [-> | Hin]; [congruence | tauto]].
Qed.

Lemma NoDup_unique (l : list K) : NoDup (unique l).
Proof.
  induction l as [| a t IH]; simpl; constructor.
  - rewrite filter_In, negb_true_iff, keqb_neq. tauto.
  - apply NoDup_filter, IH.
Qed.

Lemma insert_sorted_perm (x : K) (l : list K) :
  Permutation (insert_sorted x l) (x :: l).
Proof.
  induction l as [| y t IH]; simpl; [reflexivity |].
  destruct (kleb x y); [reflexivity |].
  rewrite IH. apply perm_swap.
Qed.

Lemma sorted_perm (l : list K) : Permutation (sorted l) l.
Proof.
  induction l as [| x t IH]; simpl; [reflexivity |].
  rewrite insert_sorted_perm. constructor. exact IH.
Qed.

Lemma In_sort_unique (x : K) (l : list K) : In x (sort_unique l) <-> In x l.
Proof.
  unfold sort_unique. rewrite <- (In_unique x l). split; intro Hin.
  - eapply Permutation_in; [apply sorted_perm | exact Hin].
  - eapply Permutation_in; [symmetry; apply sorted_perm | exact Hin].
Qed.

Lemma NoDup_sort_unique (l : list K) : NoDup (sort_unique l).
Proof.
  unfold sort_unique.
  eapply Permutation_NoDup; [symmetry; apply sorted_perm | apply NoDup_unique].
Qed.

(** Looking a label up in a table built from a list of labels. *)
Lemma lookup_map {V : Type} (f : K -> V) (k : K) (keys : list K) :
  lookup k (map (fun k' => (k', f k')) keys) =
  if existsb (keqb k) keys then Some (f k) else None.
Proof.
  induction keys as [| a t IH]; simpl; [reflexivity |].
  destruct (keqb_spec k a) as [-> | Hne]; simpl; [reflexivity | exact IH].
Qed.

Lemma existsb_keqb (k : K) (l : list K) : existsb (keqb k) l = true <-> In k l.
Proof.
  rewrite existsb_exists. split.
  - intros (y & Hin & Heq). apply keqb_eq in Heq. congruence.
  - intro Hin. exists k. split; [exact Hin | apply keqb_refl].
Qed.

End KeyFacts.

(* ------------------------------------------------------------------------- *)
(** ** The loader *)

Lemma bind_inr {A B : Type} (m : result A) (k : A -> result B) (b : B) :
  bind m k = inr b -> exists a, m = inr a /\ k a = inr b.
Proof.
  destruct m as [e | a]; simpl; [discriminate | eauto].
Qed.

Lemma bind_inl {A B : Type} (m : result A) (k : A -> result B) (e : exn) :
  m = inl e -> bind m k = inl e.
Proof. intros ->; reflexivity. Qed.

Lemma mapM_inr {A B : Type} (f : A -> result B) (l : list A) (bs : list B) :
  mapM f l = inr bs -> Forall2 (fun a b => f a = inr b) l bs.
Proof.
  revert bs; induction l as [| a t IH]; simpl; intros bs Hm.
  - inversion Hm; constructor.
  - destruct (f a) as [e | b] eqn:Hfa; simpl in Hm; [discriminate |].
    destruct (mapM f t) as [e | bs'] eqn:Ht; simpl in Hm; [discriminate |].
    inversion Hm; subst. constructor; auto.
Qed.

(** A successful load: the workbook was there, every date parsed, and the
    table is the derived rows with the per-ASIN row count merged in. *)
Lemma load_data_body_inr (fs : filesystem) (file_path : string)
  (df : list scored_row) (total : nat) :
  load_data_body fs file_path = inr (df, total) ->
  exists sh rs,
    fs file_path = Workbook sh /\
    mapM derive (rows sh) = inr rs /\
    total = nunique (map Date rs) /\
    df = map (score (groupby_count ASIN rs) total) rs.
Proof.
  unfold load_data_body. intro Hl.
  apply bind_inr in Hl; destruct Hl as (sh & Hread & Hl).
  apply bind_inr in Hl; destruct Hl as (_ & _ & Hl).
  apply bind_inr in Hl; destruct Hl as (rs & Hrs & Hl).
  apply bind_inr in Hl; destruct Hl as (_ & _ & Hl).
  apply bind_inr in Hl; destruct Hl as (_ & _ & Hl).
  inversion Hl; subst. exists sh, rs.
  unfold read_excel in Hread.
  destruct (fs file_path); try discriminate. inversion Hread; subst. auto.
Qed.

Lemma derive_inr (a : raw_row) (r : row) :
  derive a = inr r -> Date_Obj r = month_of (Date r).
Proof.
  unfold derive, month_of. intro Hd.
  apply bind_inr in Hd. destruct Hd as (t & Ht & Hr).
  inversion Hr; subst. cbn [Date Date_Obj derived]. rewrite Ht. reflexivity.
Qed.

Lemma load_data_local_rows (fs : filesystem) (file_path : string)
  (df : list scored_row) (total : nat) :
  snd (load_data_local fs file_path) = (df, total) ->
  exists rs,
    total = nunique (map Date rs) /\
    df = map (score (groupby_count ASIN rs) total) rs /\
    map Date_Obj rs = map month_of (map Date rs).
Proof.
  unfold load_data_local.
  destruct (load_data_body fs file_path) as [e | [df' total']] eqn:Hb;
    simpl; intro E; inversion E; subst.
  - exists []. split; [reflexivity | split; reflexivity].
  - destruct (load_data_body_inr _ _ Hb) as (sh & rs & _ & Hrs & Ht & Hdf).
    exists rs. split; [assumption |]. split; [assumption |].
    apply mapM_inr in Hrs. rewrite map_map. clear - Hrs.
    induction Hrs as [| a r l l' Hd _ IH]; simpl; [reflexivity |].
    rewrite IH, (derive_inr _ Hd). reflexivity.
Qed.

Lemma map_base_score (counts : list (string * nat)) (total : nat)
  (rs : list row) :
  map base (map (score counts total) rs) = rs.
Proof.
  rewrite map_map. simpl. apply map_id.
Qed.

(** The merged count of a row is the number of rows of its ASIN. *)
Lemma lookup_groupby_count (rs : list row) (r : row) :
  In r rs ->
  lookup (ASIN r) (groupby_count ASIN rs) =
  Some (List.length (rows_of (ASIN r) rs)).
Proof.
  intro Hin. unfold groupby_count.
  rewrite (lookup_map (fun k => List.length (filter (fun r0 => keqb (ASIN r0) k) rs))).
  replace (existsb (keqb (ASIN r)) (sort_unique (map ASIN rs))) with true;
    [reflexivity |].
  symmetry. apply existsb_keqb, In_sort_unique, in_map, Hin.
Qed.

(** Every row of a loaded table carries the number of rows of its ASIN in
    the whole table, and that count over the table's [nunique] of dates. *)
Lemma loaded_row_score (fs : filesystem) (file_path : string)
  (df : list scored_row) (total : nat) (r : scored_row) :
  snd (load_data_local fs file_path) = (df, total) ->
  In r df ->
  let k := List.length (rows_of (ASIN r) (map base df)) in
  在榜月数 r = Some k /\
  稳定性评分 r = ndiv (of_nat k) (of_nat total) /\
  total = nunique (map (fun r' : scored_row => Date r') df).
Proof.
  intros Hl Hin.
  destruct (load_data_local_rows _ _ Hl) as (rs & Ht & Hdf & _).
  assert (Hb : map base df = rs) by (subst df; apply map_base_score).
  rewrite Hb. subst df.
  apply in_map_iff in Hin. destruct Hin as (r0 & <- & Hin0).
  simpl. rewrite (lookup_groupby_count _ _ Hin0).
  repeat split. rewrite Ht, map_map. reflexivity.
Qed.

(* ------------------------------------------------------------------------- *)
(** ** Months listed and the stability score *)

(** C1 (the code departs from it).  The claim: the months-listed value of
    an ASIN is the number of distinct month-periods in which it appears,
    not the number of its rows.  Line 39 takes [count()] of the group, so on
    [repeated_sheet], where A1 has three rows in the one month 2024-01,
    every A1 row carries 3 while A1 appears in 1 distinct month. *)
Theorem C1_months_listed_is_row_count :
  let df := fst (snd (load_data_local (disk repeated_sheet) EXCEL_FILE)) in
  map (fun r : scored_row => (ASIN r, Date_Str r, 在榜月数 r)) df =
    [("A1", "2024-01", Some 3%nat); ("A1", "2024-01", Some 3%nat);
     ("A1", "2024-01", Some 3%nat); ("A2", "2024-02", Some 1%nat)] /\
  distinct_months "A1" (map base df) = 1%nat /\
  List.length (rows_of "A1" (map base df)) = 3%nat.
Proof.
  split; [reflexivity |]. split; reflexivity.
Qed.

(** C3 (the code departs from it).  The claim: every stability score lies
    in [0, 1] and no months-listed value exceeds the number of distinct
    month-periods of the table.  On [repeated_sheet] the table has 2
    distinct months, the A1 rows carry 3 and score 3/2. *)
Theorem C3_score_above_one_on_repeats :
  let loaded := snd (load_data_local (disk repeated_sheet) EXCEL_FILE) in
  snd loaded = 2%nat /\
  distinct_periods (map base (fst loaded)) = 2%nat /\
  map (fun r : scored_row => (在榜月数 r, 稳定性评分 r)) (fst loaded) =
    [(Some 3%nat, Fin (3 # 2)); (Some 3%nat, Fin (3 # 2));
     (Some 3%nat, Fin (3 # 2)); (Some 1%nat, Fin (1 # 2))] /\
  ~ num_between 0 1 (Fin (3 # 2)) /\
  (2 < 3)%nat.
Proof.
  split; [reflexivity |]. split; [reflexivity |]. split; [reflexivity |].
  split; [| lia].
  intros [_ Hle]. revert Hle. unfold Qle; simpl. lia.
Qed.

(** C4.  Whatever brands are selected, a row that survives the filter is a
    row of the unfiltered table, and the months-listed value and the score
    it carries are the ones computed over the whole table: the row count of
    its ASIN among all rows, divided by the number of distinct dates of all
    rows, which is the total that [load_data_local] returned. *)
Theorem C4_brand_filter_keeps_scores (fs : filesystem)
  (selected_brands : list string) (df : list scored_row) (total : nat)
  (r : scored_row) :
  snd (load_data_local fs EXCEL_FILE) = (df, total) ->
  In r (df_filtered df selected_brands) ->
  In r df /\
  在榜月数 r = Some (List.length (rows_of (ASIN r) (map base df))) /\
  稳定性评分 r =
    ndiv (of_nat (List.length (rows_of (ASIN r) (map base df)))) (of_nat total) /\
  total = nunique (map (fun r' : scored_row => Date r') df).
Proof.
  intros Hl Hin.
  unfold df_filtered in Hin. apply filter_In in Hin. destruct Hin as [Hin _].
  split; [exact Hin |].
  exact (@loaded_row_score fs EXCEL_FILE df total r Hl Hin).
Qed.

Lemma C4_brand_filter_keeps_scores_witness :
  let df := fst (snd (load_data_local (disk two_brand_sheet) EXCEL_FILE)) in
  snd (load_data_local (disk two_brand_sheet) EXCEL_FILE) = (df, 2%nat) /\
  exists r : scored_row,
    hd_error df = Some r /\
    In r (df_filtered df ["Ohuhu"]) /\
    In r df /\
    在榜月数 r = Some (List.length (rows_of (ASIN r) (map base df))) /\
    稳定性评分 r =
      ndiv (of_nat (List.length (rows_of (ASIN r) (map base df)))) (of_nat 2) /\
    2%nat = nunique (map (fun r' : scored_row => Date r') df).
Proof.
  cbv zeta. split; [reflexivity |].
  eexists. split; [reflexivity |].
  assert (Hin : In (score (groupby_count ASIN
                             [derived (sample_row "A1" "Ohuhu" 202401 10 1)
                                      (2024%Z, 1%Z);
                              derived (sample_row "A2" "Posca" 202402 20 2)
                                      (2024%Z, 2%Z)]) 2
                          (derived (sample_row "A1" "Ohuhu" 202401 10 1)
                                   (2024%Z, 1%Z)))
                   (df_filtered
                      (fst (snd (load_data_local (disk two_brand_sheet)
                                                 EXCEL_FILE)))
                      ["Ohuhu"])) by (left; reflexivity).
  split; [exact Hin |].
  exact (@C4_brand_filter_keeps_scores
           (disk two_brand_sheet) ["Ohuhu"] _ 2%nat _ eq_refl Hin).
Defined.

(* ------------------------------------------------------------------------- *)
(** ** Tables with one row per ASIN and month *)

Section Counting.

Context {K : Type} {HK : Key K} {LK : KeyLaws HK}.




End Counting.






(* ------------------------------------------------------------------------- *)
(** ** Ratios *)

Lemma ndiv_by_zero (x y : Q) : (y == 0)%Q -> ndiv (Fin x) (Fin y) = over_zero x.
Proof.
  intro Hy. unfold ndiv, over_zero.
  apply Qeq_bool_iff in Hy. rewrite Hy. reflexivity.
Qed.

Lemma over_zero_not_finite (x : Q) (q : Q) : over_zero x <> Fin q.
Proof.
  unfold over_zero. destruct (x ?= 0)%Q; discriminate.
Qed.

(** C2, as the code has it.  Whenever the date of a row parses, the row is
    derived: the divisions raise nothing.  With [Sales] zero, [ASP] is the
    float that [Amount / 0] gives, an infinity with the sign of [Amount] or
    NaN when [Amount] is zero too, and never a finite number; likewise
    [Unit_Price] with a zero [产品支数]. *)
Theorem C2_zero_divisor_gives_inf_or_nan (r : raw_row) (t : Z * Z) :
  to_datetime (raw_Date r) = inr t ->
  exists r' : row,
    derive r = inr r' /\
    ((Sales r' == 0)%Q ->
       ASP r' = over_zero (Amount r') /\ forall q, ASP r' <> Fin q) /\
    ((产品支数 r' == 0)%Q ->
       Unit_Price r' = over_zero (Price r') /\ forall q, Unit_Price r' <> Fin q).
Proof.
  intro Ht. exists (derived r t).
  split; [unfold derive; rewrite Ht; reflexivity |].
  split; intro Hz.
  - change (ASP (derived r t)) with
      (ndiv (Fin (Amount (derived r t))) (Fin (Sales (derived r t)))).
    rewrite (ndiv_by_zero _ Hz).
    split; [reflexivity | apply over_zero_not_finite].
  - change (Unit_Price (derived r t)) with
      (ndiv (Fin (Price (derived r t))) (Fin (产品支数 (derived r t)))).
    rewrite (ndiv_by_zero _ Hz).
    split; [reflexivity | apply over_zero_not_finite].
Qed.

Lemma C2_zero_divisor_gives_inf_or_nan_witness :
  to_datetime (raw_Date (sample_row "A1" "Ohuhu" 202401 50 0)) = inr (2024%Z, 1%Z) /\
  exists r' : row,
    derive (sample_row "A1" "Ohuhu" 202401 50 0) = inr r' /\
    ((Sales r' == 0)%Q ->
       ASP r' = over_zero (Amount r') /\ forall q, ASP r' <> Fin q) /\
    ((产品支数 r' == 0)%Q ->
       Unit_Price r' = over_zero (Price r') /\ forall q, Unit_Price r' <> Fin q).
Proof.
  split; [reflexivity |].
  apply (@C2_zero_divisor_gives_inf_or_nan
           (sample_row "A1" "Ohuhu" 202401 50 0) (2024%Z, 1%Z)).
  reflexivity.
Defined.

(** C2 as stated fails: with [Sales = 0] and [Amount = 50] the row is
    derived and its [ASP] is plus infinity, which is not zero. *)
Lemma C2_counterexample :
  exists r' : row,
    derive (sample_row "A1" "Ohuhu" 202401 50 0) = inr r' /\
    (Sales r' == 0)%Q /\ (Amount r' == 50)%Q /\
    ASP r' = PInf /\ ~ num_eq (ASP r') (Fin 0).
Proof.
  eexists. split; [reflexivity |]. simpl.
  repeat split; try reflexivity. intro H; exact H.
Qed.




(* ------------------------------------------------------------------------- *)
(** ** Sums *)

Lemma sumQ_map_zero {A : Type} (l : list A) :
  (sumQ (map (fun _ => 0) l) == 0)%Q.
Proof.
  induction l as [| a t IH]; simpl; [reflexivity |].
  rewrite IH. ring.
Qed.

(** Adding [a] to the one entry of a duplicate-free list of labels that is
    [x] adds [a] to the sum. *)
Lemma sumQ_add_at {K : Type} {HK : Key K} {LK : KeyLaws HK}
  (x : K) (a : Q) (g : K -> Q) (l : list K) :
  NoDup l ->
  (sumQ (map (fun c => if keqb x c then a + g c else g c) l) ==
   (if existsb (keqb x) l then a else 0) + sumQ (map g l))%Q.
Proof.
  induction 1 as [| c t Hnotin Hnd IH]; simpl; [ring |].
  rewrite IH.
  destruct (keqb_spec x c) as [-> | Hne]; simpl.
  - replace (existsb (keqb c) t) with false; [ring |].
    symmetry. apply not_true_iff_false. rewrite existsb_keqb. exact Hnotin.
  - ring.
Qed.

Lemma sumQ_div (t : Q) (l : list Q) :
  (sumQ (map (fun x => x / t) l) == sumQ l / t)%Q.
Proof.
  induction l as [| a l IH]; simpl.
  - unfold Qdiv. ring.
  - rewrite IH. unfold Qdiv. ring.
Qed.

Lemma nsum_shares (t : Q) (l : list Q) :
  ~ (t == 0)%Q ->
  nsum (map (fun x => ndiv (Fin x) (Fin t)) l) = Fin (sumQ (map (fun x => x / t) l))%Q.
Proof.
  intro Ht.
  assert (Hb : Qeq_bool t 0 = false).
  { apply not_true_iff_false. rewrite Qeq_bool_iff. exact Ht. }
  induction l as [| a l IH]; [reflexivity |].
  change (nadd (ndiv (Fin a) (Fin t))
               (nsum (map (fun x => ndiv (Fin x) (Fin t)) l)) =
          Fin (a / t + sumQ (map (fun x => x / t) l))).
  rewrite IH. unfold ndiv. rewrite Hb. reflexivity.
Qed.

Lemma combine_map_self {A B : Type} (f : A -> B) (l : list A) :
  combine l (map f l) = map (fun x => (x, f x)) l.
Proof.
  induction l as [| a t IH]; simpl; [reflexivity | rewrite IH; reflexivity].
Qed.

(* ------------------------------------------------------------------------- *)
(** ** Group-by and pivot *)

Section GroupBy.

Context {R K : Type} {HK : Key K} {LK : KeyLaws HK}.
Variable key : R -> K.

Lemma filter_absent (k : K) (df : list R) :
  ~ In k (map key df) -> filter (fun r => keqb (key r) k) df = [].
Proof.
  induction df as [| r t IH]; simpl; intro Hnot; [reflexivity |].
  destruct (keqb_spec (key r) k) as [E | _]; [tauto |].
  apply IH. tauto.
Qed.

(** The entry of a group-by sum at a label, 0 when the label is absent, is
    the sum over the rows that carry the label. *)
Lemma lookup_groupby_sum (val : R -> Q) (k : K) (df : list R) :
  match lookup k (groupby_sum key val df) with
  | Some v => v
  | None => 0%Q
  end = sumQ (map val (filter (fun r => keqb (key r) k) df)).
Proof.
  unfold groupby_sum.
  rewrite (lookup_map
             (fun k0 => sumQ (map val (filter (fun r => keqb (key r) k0) df)))).
  destruct (existsb (keqb k) (sort_unique (map key df))) eqn:Hex;
    [reflexivity |].
  rewrite filter_absent; [reflexivity |].
  intro Hin. apply (In_sort_unique k (map key df)) in Hin.
  apply existsb_keqb in Hin. congruence.
Qed.

Lemma groupby_sum_labels (val : R -> Q) (df : list R) :
  map fst (groupby_sum key val df) = sort_unique (map key df).
Proof.
  unfold groupby_sum. rewrite map_map. simpl. apply map_id.
Qed.

End GroupBy.

Section Pivot.

Context {I C : Type} {HI : Key I} {HC : Key C}.
Context {LI : KeyLaws HI} {LC : KeyLaws HC}.
Variable period : scored_row -> I.
Variable category : scored_row -> C.

(** Every cell of the matrix is the total of its period and category. *)
Lemma pivot_sum_values (df : list scored_row) :
  values (pivot_sum period category df) =
  map (fun p => map (fun c => cell_total period category p c df)
                    (header (pivot_sum period category df)))
      (index (pivot_sum period category df)).
Proof.
  unfold pivot_sum, unstack; simpl.
  apply map_ext; intro p. apply map_ext; intro c.
  apply (lookup_groupby_sum (fun r : scored_row => (period r, category r))).
Qed.

Lemma pivot_sum_header_NoDup (df : list scored_row) :
  NoDup (header (pivot_sum period category df)).
Proof.
  unfold pivot_sum, unstack; simpl. apply NoDup_sort_unique.
Qed.

Lemma pivot_sum_header_In (df : list scored_row) (r : scored_row) :
  In r df -> In (category r) (header (pivot_sum period category df)).
Proof.
  intro Hin. unfold pivot_sum, unstack; simpl.
  apply In_sort_unique.
  rewrite <- (map_map fst snd), groupby_sum_labels.
  apply in_map_iff. exists (period r, category r). split; [reflexivity |].
  apply In_sort_unique.
  apply (in_map (fun r0 : scored_row => (period r0, category r0))), Hin.
Qed.

(** Summing the cells of one period over a duplicate-free list of
    categories that covers the table gives the total of the period. *)
Lemma cells_sum_to_period_total (p : I) (cols : list C) (df : list scored_row) :
  NoDup cols ->
  (forall r, In r df -> In (category r) cols) ->
  (sumQ (map (fun c => cell_total period category p c df) cols) ==
   period_total period p df)%Q.
Proof.
  intros Hnd. induction df as [| r t IH]; intro Hcov.
  - unfold cell_total, period_total; simpl. apply sumQ_map_zero.
  - assert (IH' := IH (fun r0 H0 => Hcov r0 (or_intror H0))).
    unfold period_total in *; simpl.
    destruct (keqb_spec (period r) p) as [Ep | Np].
    + rewrite (map_ext
                 (fun c => cell_total period category p c (r :: t))
                 (fun c => if keqb (category r) c
                           then (Amount r + cell_total period category p c t)%Q
                           else cell_total period category p c t)).
      * rewrite (sumQ_add_at _ _ _ Hnd).
        replace (existsb (keqb (category r)) cols) with true.
        -- simpl. rewrite IH'. reflexivity.
        -- symmetry. apply existsb_keqb, Hcov. left; reflexivity.
      * intro c. unfold cell_total; simpl.
        destruct (keqb_spec (period r) p); [| contradiction].
        simpl. destruct (keqb (category r) c); reflexivity.
    + rewrite (map_ext
                 (fun c => cell_total period category p c (r :: t))
                 (fun c => cell_total period category p c t)); [exact IH' |].
      intro c. unfold cell_total; simpl.
      destruct (keqb_spec (period r) p); [contradiction | reflexivity].
Qed.

(** The row of a period in the matrix, its total, and its row of shares. *)
Lemma pivot_sum_row (df : list scored_row) (n : nat) (p : I) :
  nth_error (index (pivot_sum period category df)) n = Some p ->
  exists cells : list Q,
    nth_error (values (pivot_sum period category df)) n = Some cells /\
    List.length cells = List.length (header (pivot_sum period category df)) /\
    (sumQ cells == period_total period p df)%Q /\
    nth_error (values (div_axis0 (pivot_sum period category df)
                                 (sum_axis1 (pivot_sum period category df)))) n =
      Some (map (fun x => ndiv (Fin x) (Fin (sumQ cells))) cells).
Proof.
  intro Hn.
  exists (map (fun c => cell_total period category p c df)
              (header (pivot_sum period category df))).
  assert (Hrow : nth_error (values (pivot_sum period category df)) n =
                 Some (map (fun c => cell_total period category p c df)
                           (header (pivot_sum period category df)))).
  { rewrite pivot_sum_values, nth_error_map, Hn. reflexivity. }
  split; [exact Hrow |]. split; [apply length_map |]. split.
  - apply cells_sum_to_period_total.
    + apply pivot_sum_header_NoDup.
    + apply pivot_sum_header_In.
  - unfold div_axis0, sum_axis1. cbn [values].
    rewrite combine_map_self, map_map. cbn [fst snd].
    rewrite nth_error_map, Hrow. reflexivity.
Qed.

End Pivot.

(** C6.  In the quarterly matrix [q_data], the cells of a period sum to the
    total of [Amount] over the rows of that period, taken without pivoting;
    and when that total is not zero, the shares that the script shows for
    the period (each cell divided by the row total) sum to 1.  Amounts are
    exact rationals here, so the sum is 1 with no rounding term. *)
Theorem C6_quarter_shares_sum_to_one (float_repr : Q -> string)
  (df : list scored_row) (selected_brands : list string) (n : nat) (q : string) :
  nth_error (index (q_data df)) n = Some q ->
  exists cells : list Q,
    nth_error (values (q_data df)) n = Some cells /\
    (sumQ cells == period_total (fun r : scored_row => Quarter r) q df)%Q /\
    (~ (sumQ cells == 0)%Q ->
     exists (shares : list num) (s : Q),
       nth_error (values (q_share (render float_repr df selected_brands))) n =
         Some shares /\
       nsum shares = Fin s /\ (s == 1)%Q).
Proof.
  intro Hn. unfold q_data in *.
  destruct (pivot_sum_row _ _ _ _ Hn) as (cells & Hrow & _ & Htot & Hshare).
  exists cells. split; [exact Hrow |]. split; [exact Htot |].
  intro Hnz.
  exists (map (fun x => ndiv (Fin x) (Fin (sumQ cells))) cells),
         (sumQ (map (fun x => x / sumQ cells) cells))%Q.
  split; [exact Hshare |]. split; [apply nsum_shares; exact Hnz |].
  rewrite sumQ_div. field. exact Hnz.
Qed.

Lemma C6_quarter_shares_sum_to_one_witness :
  let df := fst (snd (load_data_local (disk two_brand_sheet) EXCEL_FILE)) in
  nth_error (index (q_data df)) 0 = Some "2024Q1" /\
  exists cells : list Q,
    nth_error (values (q_data df)) 0 = Some cells /\
    (sumQ cells == period_total (fun r : scored_row => Quarter r) "2024Q1" df)%Q /\
    (~ (sumQ cells == 0)%Q ->
     exists (shares : list num) (s : Q),
       nth_error (values (q_share (render one_digit_repr df ["Ohuhu"]))) 0 =
         Some shares /\
       nsum shares = Fin s /\ (s == 1)%Q).
Proof.
  cbv zeta. split; [reflexivity |].
  apply (@C6_quarter_shares_sum_to_one one_digit_repr
           (fst (snd (load_data_local (disk two_brand_sheet) EXCEL_FILE)))
           ["Ohuhu"] 0%nat "2024Q1").
  reflexivity.
Defined.

(** X16.  In the yearly matrix [y_data] of line 108, the cells of a year sum to
    the total of [Amount] over the rows of that year, and when that total is
    not zero the yearly shares of line 109 sum to 1. *)
Lemma year_shares_sum_to_one (float_repr : Q -> string)
  (df : list scored_row) (selected_brands : list string) (n : nat) (y : Z) :
  nth_error (index (y_data df)) n = Some y ->
  exists cells : list Q,
    nth_error (values (y_data df)) n = Some cells /\
    (sumQ cells == period_total (fun r : scored_row => Year r) y df)%Q /\
    (~ (sumQ cells == 0)%Q ->
     exists (shares : list num) (s : Q),
       nth_error (values (y_share (render float_repr df selected_brands))) n =
         Some shares /\
       nsum shares = Fin s /\ (s == 1)%Q).
Proof.
  intro Hn. unfold y_data in *.
  destruct (pivot_sum_row _ _ _ _ Hn) as (cells & Hrow & _ & Htot & Hshare).
  exists cells. split; [exact Hrow |]. split; [exact Htot |].
  intro Hnz.
  exists (map (fun x => ndiv (Fin x) (Fin (sumQ cells))) cells),
         (sumQ (map (fun x => x / sumQ cells) cells))%Q.
  split; [exact Hshare |]. split; [apply nsum_shares; exact Hnz |].
  rewrite sumQ_div. field. exact Hnz.
Qed.

(* ------------------------------------------------------------------------- *)
(** ** Period-over-period change *)

Lemma nth_error_combine {A B : Type} (l : list A) (l' : list B) (n : nat)
  (a : A) (b : B) :
  nth_error l n = Some a -> nth_error l' n = Some b ->
  nth_error (combine l l') n = Some (a, b).
Proof.
  revert l' n; induction l as [| x t IH]; intros [| y t'] [| n]; simpl;
    try discriminate.
  - intros Ha Hb; inversion Ha; inversion Hb; reflexivity.
  - apply IH.
Qed.

(** Dividing by a missing value and subtracting 1 leaves a missing value. *)
Lemma change_against_gap (row : list Q) :
  map (fun xp : Q * num => nsub (ndiv (Fin (fst xp)) (snd xp)) (Fin 1))
      (combine row (repeat NaN (List.length row))) =
  repeat NaN (List.length row).
Proof.
  induction row as [| x t IH]; [reflexivity |].
  cbn [List.length repeat combine map fst snd].
  rewrite IH. reflexivity.
Qed.

(** A row above the lag window is all gaps. *)
Lemma pct_change_gap {I C : Type} (periods : nat) (f : frame I C Q)
  (n : nat) (row : list Q) :
  (n < periods)%nat ->
  nth_error (values f) n = Some row ->
  List.length row = List.length (header f) ->
  nth_error (values (pct_change periods f)) n =
  Some (repeat NaN (List.length (header f))).
Proof.
  intros Hlag Hrow Hlen.
  assert (Hn : (n < List.length (values f))%nat).
  { apply nth_error_Some. rewrite Hrow. discriminate. }
  assert (Hshift : nth_error (shift periods f) n =
                   Some (repeat NaN (List.length (header f)))).
  { unfold shift. rewrite nth_error_firstn.
    apply Nat.ltb_lt in Hn. rewrite Hn.
    rewrite nth_error_app1 by (rewrite repeat_length; exact Hlag).
    apply nth_error_repeat. exact Hlag. }
  unfold pct_change. cbn [values].
  rewrite nth_error_map, (nth_error_combine _ _ _ Hrow Hshift).
  cbn [option_map fst snd]. rewrite <- Hlen, change_against_gap. reflexivity.
Qed.

(** C7.  In the quarterly year-over-year table, [q_data.pct_change(4)],
    the row of each of the first four periods holds a missing value in
    every brand column; a missing value is not zero. *)
Theorem C7_first_four_periods_are_gaps (float_repr : Q -> string)
  (df : list scored_row) (selected_brands : list string) (n : nat) (q : string) :
  (n < 4)%nat ->
  nth_error (index (q_data df)) n = Some q ->
  index (q_yoy (render float_repr df selected_brands)) = index (q_data df) /\
  header (q_yoy (render float_repr df selected_brands)) = header (q_data df) /\
  nth_error (values (q_yoy (render float_repr df selected_brands))) n =
    Some (repeat NaN (List.length (header (q_data df)))) /\
  ~ num_eq NaN (Fin 0).
Proof.
  intros Hlag Hn.
  split; [reflexivity |]. split; [reflexivity |]. split; [| intro H; exact H].
  unfold q_data in *.
  destruct (pivot_sum_row _ _ _ _ Hn) as (cells & Hrow & Hlen & _).
  cbn [q_yoy render]. unfold q_data.
  exact (pct_change_gap _ Hlag Hrow Hlen).
Qed.

Lemma C7_first_four_periods_are_gaps_witness :
  let df := fst (snd (load_data_local (disk six_quarter_sheet) EXCEL_FILE)) in
  (3 < 4)%nat /\
  nth_error (index (q_data df)) 3 = Some "2024Q4" /\
  index (q_yoy (render one_digit_repr df ["Ohuhu"])) = index (q_data df) /\
  header (q_yoy (render one_digit_repr df ["Ohuhu"])) = header (q_data df) /\
  nth_error (values (q_yoy (render one_digit_repr df ["Ohuhu"]))) 3 =
    Some (repeat NaN (List.length (header (q_data df)))) /\
  ~ num_eq NaN (Fin 0).
Proof.
  cbv zeta. split; [lia |]. split; [reflexivity |].
  apply (@C7_first_four_periods_are_gaps one_digit_repr
           (fst (snd (load_data_local (disk six_quarter_sheet) EXCEL_FILE)))
           ["Ohuhu"] 3%nat "2024Q4"); [lia | reflexivity].
Defined.

(** Past the lag window the change is a number: on [six_quarter_sheet] the
    fifth quarter shows 15/10 - 1 and the sixth 0/20 - 1. *)
Example q_yoy_six_quarters :
  let df := fst (snd (load_data_local (disk six_quarter_sheet) EXCEL_FILE)) in
  values (q_yoy (render one_digit_repr df ["Ohuhu"])) =
  [[NaN]; [NaN]; [NaN]; [NaN]; [Fin (5 # 10)]; [Fin (-20 # 20)]].
Proof. vm_compute. reflexivity. Qed.

(* ------------------------------------------------------------------------- *)
(** ** The brand filter and the panels *)

(** C5 (the code departs from it).  The claim: every panel aggregates only
    the rows of the selected brands.  With the two brands of
    [two_brand_sheet] loaded and only Ohuhu selected, the monthly sales of
    line 80 hold Ohuhu alone, but the quarterly share matrix of line 106
    keeps a Posca column with share 20/30, the price-tier sums of line 146
    are 30 and not 10, and the colour trend of line 173 keeps Posca's
    February: these lines aggregate [df], not [df_filtered]. *)
Theorem C5_matrices_ignore_brand_filter (float_repr : Q -> string) :
  let df := fst (snd (load_data_local (disk two_brand_sheet) EXCEL_FILE)) in
  let d := render float_repr df ["Ohuhu"] in
  map (fun r : scored_row => Brand r) (df_filtered df ["Ohuhu"]) = ["Ohuhu"] /\
  monthly_sales d = [(("2024-01", "Ohuhu"), 10%Q)] /\
  header (q_share d) = ["Ohuhu"; "Posca"] /\
  values (q_share d) = [[Fin (10 # 30); Fin (20 # 30)]] /\
  header (q_yoy d) = ["Ohuhu"; "Posca"] /\
  price_q d = [(("2024Q1", "10-20"), 30%Q)] /\
  values (price_tbl d) = [[30%Q]] /\
  c_trend d = [(("2024-01", "Assorted"), 10%Q); (("2024-02", "Assorted"), 20%Q)] /\
  values (q_data (df_filtered df ["Ohuhu"])) = [[10%Q]].
Proof.
  cbv zeta. repeat split; vm_compute; reflexivity.
Qed.

(** The tables of lines 103-109, 146-149 and 173 are the same for every
    selection. *)
Lemma unfiltered_panels (float_repr : Q -> string) (df : list scored_row)
  (s1 s2 : list string) :
  q_yoy (render float_repr df s1) = q_yoy (render float_repr df s2) /\
  q_share (render float_repr df s1) = q_share (render float_repr df s2) /\
  y_share (render float_repr df s1) = y_share (render float_repr df s2) /\
  price_q (render float_repr df s1) = price_q (render float_repr df s2) /\
  price_tbl (render float_repr df s1) = price_tbl (render float_repr df s2) /\
  c_trend (render float_repr df s1) = c_trend (render float_repr df s2).
Proof.
  repeat split; reflexivity.
Qed.

(* ------------------------------------------------------------------------- *)
(** ** Load failure *)

(** C9.  When the body of [load_data_local] raises, whatever the exception
    (the file is absent, it cannot be read, a column is missing or a date
    does not parse), the loader shows the error once and returns the empty
    table and 0; the script then shows its warning and stops: there is no
    dashboard, for any selection of brands. *)
Theorem C9_load_failure_stops_the_script (float_repr : Q -> string)
  (fs : filesystem) (selected_brands : list string) (e : exn) :
  load_data_body fs EXCEL_FILE = inl e ->
  load_data_local fs EXCEL_FILE = ([st.error e], ([], 0%nat)) /\
  script float_repr fs selected_brands =
    ([st.error e; st.warning "数据表为空，请检查 Excel 文件内容。"], None).
Proof.
  intro Hraise.
  assert (Hl : load_data_local fs EXCEL_FILE = ([st.error e], ([], 0%nat))).
  { unfold load_data_local. rewrite Hraise. reflexivity. }
  split; [exact Hl |].
  unfold script. rewrite Hl. reflexivity.
Qed.

Lemma C9_load_failure_stops_the_script_witness :
  load_data_body empty_disk EXCEL_FILE = inl FileNotFoundError /\
  load_data_local empty_disk EXCEL_FILE =
    ([st.error FileNotFoundError], ([], 0%nat)) /\
  script one_digit_repr empty_disk ["Ohuhu"] =
    ([st.error FileNotFoundError;
      st.warning "数据表为空，请检查 Excel 文件内容。"], None).
Proof.
  split; [reflexivity |].
  apply (@C9_load_failure_stops_the_script one_digit_repr empty_disk ["Ohuhu"]
           FileNotFoundError).
  reflexivity.
Defined.

(** What makes the body raise. *)
Lemma load_raises_absent (fs : filesystem) (file_path : string) :
  fs file_path = Absent ->
  load_data_body fs file_path = inl FileNotFoundError.
Proof.
  intro Hfs. unfold load_data_body, read_excel. rewrite Hfs. reflexivity.
Qed.

Lemma load_raises_unreadable (fs : filesystem) (file_path why : string) :
  fs file_path = Unreadable why ->
  load_data_body fs file_path = inl (OtherError why).
Proof.
  intro Hfs. unfold load_data_body, read_excel. rewrite Hfs. reflexivity.
Qed.





(* ------------------------------------------------------------------------- *)
(** ** The colour classifier *)

Lemma prefix_iff (c s : string) :
  prefix c s = true <-> exists post : string, s = (c ++ post)%string.
Proof.
  revert s; induction c as [| a c IH]; intros [| b s]; simpl.
  - split; eauto.
  - split; eauto.
  - split; [discriminate | intros [post E]; discriminate].
  - destruct (ascii_dec a b) as [-> | Hne].
    + rewrite IH. split; intros [post E]; exists post; congruence.
    + split; [discriminate | intros [post E]; congruence].
Qed.

(** [contains] decides "occurs as a substring". *)
Lemma contains_iff (c s : string) : contains c s = true <-> substring_of c s.
Proof.
  unfold substring_of. induction s as [| b s IH].
  - cbn [contains]. rewrite orb_false_r, prefix_iff. split.
    + intros [post E]. exists EmptyString, post. exact E.
    + intros (pre & post & E). destruct pre; [eauto | discriminate].
  - cbn [contains]. rewrite orb_true_iff, prefix_iff, IH. split.
    + intros [[post E] | (pre & post & E)].
      * exists EmptyString, post. exact E.
      * exists (String b pre), post. simpl. rewrite E. reflexivity.
    + intros ([| a pre] & post & E); simpl in E.
      * left. eauto.
      * right. exists pre, post. congruence.
Qed.

Lemma Color_Type_cases (float_repr : Q -> string) (x : pyval) :
  Color_Type float_repr x =
  if existsb (fun c => contains c (py_str float_repr x)) solid_colors
  then "Independent" else "Assorted".
Proof. reflexivity. Qed.

(** C8.  The classifier answers "Independent" exactly when the text of the
    value has one of the five solid-colour names as a substring, compared
    character by character (so in a case-sensitive way), and "Assorted"
    exactly when it has none.  For a string value the text is the value. *)
Theorem C8_independent_iff_contains_solid_color (float_repr : Q -> string)
  (x : pyval) :
  (Color_Type float_repr x = "Independent" <->
   exists c, In c solid_colors /\ substring_of c (py_str float_repr x)) /\
  (Color_Type float_repr x = "Assorted" <->
   ~ exists c, In c solid_colors /\ substring_of c (py_str float_repr x)) /\
  (forall s, py_str float_repr (PyStr s) = s).
Proof.
  assert (Hex : existsb (fun c => contains c (py_str float_repr x)) solid_colors
                = true <->
                exists c, In c solid_colors /\
                          substring_of c (py_str float_repr x)).
  { rewrite existsb_exists. split; intros (c & Hin & Hc); exists c;
      (split; [exact Hin | apply contains_iff; exact Hc]). }
  rewrite Color_Type_cases.
  destruct (existsb (fun c => contains c (py_str float_repr x)) solid_colors).
  - split; [| split]; [tauto | | reflexivity].
    split; [discriminate |]. intro Hno. exfalso. apply Hno, Hex. reflexivity.
  - split; [| split]; [| | reflexivity].
    + split; [discriminate |]. intro H. apply Hex in H. discriminate.
    + split; [| reflexivity]. intros _ H. apply Hex in H. discriminate.
Qed.

(** The comparison is case-sensitive and looks inside the text. *)
Example Color_Type_samples (float_repr : Q -> string) :
  map (Color_Type float_repr)
      [PyStr "White"; PyStr "Snow White 12"; PyStr "white"; PyStr "GOLD";
       PyStr "Metallic Gold"; PyStr "24 Colors"; PyStr ""] =
  ["Independent"; "Independent"; "Assorted"; "Assorted";
   "Independent"; "Assorted"; "Assorted"].
Proof. reflexivity. Qed.

Lemma list_ascii_of_string_app (s1 s2 : string) :
  list_ascii_of_string (s1 ++ s2)%string =
  list_ascii_of_string s1 ++ list_ascii_of_string s2.
Proof.
  induction s1 as [| a s1 IH]; simpl; [reflexivity | rewrite IH; reflexivity].
Qed.

Lemma chars_within_app (alphabet s1 s2 : string) :
  chars_within alphabet (s1 ++ s2)%string =
  chars_within alphabet s1 && chars_within alphabet s2.
Proof.
  unfold chars_within. rewrite list_ascii_of_string_app. apply forallb_app.
Qed.

Lemma chars_within_In (alphabet s : string) (ch : ascii) :
  chars_within alphabet s = true ->
  In ch (list_ascii_of_string s) ->
  In ch (list_ascii_of_string alphabet).
Proof.
  unfold chars_within. rewrite forallb_forall. intros Hall Hin.
  specialize (Hall ch Hin). apply existsb_exists in Hall.
  destruct Hall as (y & Hy & Heq). apply Ascii.eqb_eq in Heq. congruence.
Qed.

Lemma chars_within_mono (a b s : string) :
  chars_within b a = true -> chars_within a s = true ->
  chars_within b s = true.
Proof.
  intros Hab Has. unfold chars_within. apply forallb_forall. intros ch Hin.
  apply existsb_exists. exists ch. split; [| apply Ascii.eqb_refl].
  eapply chars_within_In; [exact Hab |].
  eapply chars_within_In; [exact Has | exact Hin].
Qed.

(** A text that holds a name holds the first letter of the name. *)
Lemma contains_first_letter (a : ascii) (c s : string) :
  contains (String a c) s = true -> In a (list_ascii_of_string s).
Proof.
  intro Hc. apply contains_iff in Hc. destruct Hc as (pre & post & ->).
  rewrite list_ascii_of_string_app. apply in_or_app. right. left. reflexivity.
Qed.

(** No text over the plain alphabet holds a solid-colour name: each name
    starts with a capital that the alphabet lacks. *)
Lemma plain_text_is_assorted (s : string) :
  chars_within plain_alphabet s = true ->
  existsb (fun c => contains c s) solid_colors = false.
Proof.
  intro Hs. apply not_true_iff_false. rewrite existsb_exists.
  intros (c & Hin & Hc).
  assert (Hno : forall a c', c = String a c' ->
                  In a (list_ascii_of_string plain_alphabet)).
  { intros a c' ->. eapply chars_within_In; [exact Hs |].
    eapply contains_first_letter; exact Hc. }
  simpl in Hin.
  destruct Hin as [<- | [<- | [<- | [<- | [<- | []]]]]];
    specialize (Hno _ _ eq_refl); simpl in Hno;
    repeat (destruct Hno as [Hno | Hno]; [discriminate |]); exact Hno.
Qed.

Lemma string_of_uint_digits (d : Decimal.uint) :
  chars_within "0123456789-" (NilEmpty.string_of_uint d) = true.
Proof.
  induction d; simpl; try reflexivity; exact IHd.
Qed.

Lemma string_of_uint_nonempty_digits (d : Decimal.uint) :
  chars_within "0123456789-" (NilZero.string_of_uint d) = true.
Proof.
  destruct d; try reflexivity; apply string_of_uint_digits.
Qed.

Lemma str_Z_digits (z : Z) : chars_within "0123456789-" (str_Z z) = true.
Proof.
  unfold str_Z, NilZero.string_of_int.
  destruct (Z.to_int z) as [d | d].
  - apply string_of_uint_nonempty_digits.
  - change (String "-" (NilZero.string_of_uint d))
      with ("-" ++ NilZero.string_of_uint d)%string.
    rewrite chars_within_app, string_of_uint_nonempty_digits. reflexivity.
Qed.

(** C10.  A value that is not a string, be it a missing cell (NaN), [None],
    a boolean, a number or a date, is classified "Assorted": the classifier
    tests the text [str(x)], which then holds no solid-colour name, and
    [str] is total, so nothing is raised.  For a finite float the text comes
    from the float printer, of which the theorem asks that it prints the
    value with the characters of a float literal. *)
Theorem C10_non_string_is_assorted (float_repr : Q -> string) (x : pyval) :
  (forall s, x <> PyStr s) ->
  (forall q, x = PyFloat q -> chars_within float_alphabet (float_repr q) = true) ->
  Color_Type float_repr x = "Assorted".
Proof.
  intros Hns Hfloat. rewrite Color_Type_cases.
  rewrite plain_text_is_assorted; [reflexivity |].
  assert (Hz : forall z, chars_within plain_alphabet (str_Z z) = true).
  { intro z. apply (chars_within_mono "0123456789-");
      [reflexivity | apply str_Z_digits]. }
  assert (H2 : forall z, chars_within plain_alphabet (two_digits z) = true).
  { intro z. unfold two_digits. rewrite chars_within_app, Hz.
    destruct (z <? 10)%Z; reflexivity. }
  destruct x as [s | | | [|] | z | q | [|] | y mo d h mi sec]; try reflexivity.
  - exfalso. exact (Hns s eq_refl).
  - apply Hz.
  - apply (chars_within_mono float_alphabet); [reflexivity |].
    apply Hfloat. reflexivity.
  - cbn [py_str]. rewrite !chars_within_app, Hz, !H2. reflexivity.
Qed.

Lemma C10_non_string_is_assorted_witness :
  (forall s, PyFloat (5 # 2) <> PyStr s) /\
  (forall q, PyFloat (5 # 2) = PyFloat q ->
             chars_within float_alphabet (one_digit_repr q) = true) /\
  Color_Type one_digit_repr (PyFloat (5 # 2)) = "Assorted".
Proof.
  assert (Hns : forall s, PyFloat (5 # 2) <> PyStr s) by (intros s; discriminate).
  assert (Hfloat : forall q, PyFloat (5 # 2) = PyFloat q ->
                     chars_within float_alphabet (one_digit_repr q) = true).
  { intros q E. inversion E. reflexivity. }
  split; [exact Hns |]. split; [exact Hfloat |].
  exact (@C10_non_string_is_assorted one_digit_repr (PyFloat (5 # 2)) Hns Hfloat).
Defined.

(** The sample printer meets what C10 asks of the float printer, for every
    float. *)
Lemma one_digit_repr_chars (q : Q) :
  chars_within float_alphabet (one_digit_repr q) = true.
Proof.
  unfold one_digit_repr. rewrite !chars_within_app.
  assert (Hd : forall z, chars_within float_alphabet (str_Z z) = true).
  { intro z. apply (chars_within_mono "0123456789-");
      [reflexivity | apply str_Z_digits]. }
  rewrite !Hd. destruct (Qnum q <? 0)%Z; reflexivity.
Qed.

(** The missing cell and the other values without a printer. *)
Example missing_is_assorted (float_repr : Q -> string) :
  map (Color_Type float_repr)
      [PyNaN; PyNone; PyBool true; PyBool false; PyInt 12; PyInt (-3);
       PyInf false; PyInf true; PyDatetime 2024 3 1 0 0 0] =
  ["Assorted"; "Assorted"; "Assorted"; "Assorted"; "Assorted"; "Assorted";
   "Assorted"; "Assorted"; "Assorted"].
Proof. reflexivity. Qed.

(* ========================================================================= *)
(** * Further properties of the script *)

(* ------------------------------------------------------------------------- *)
(** ** What loads and what a loaded table holds *)



Lemma mapM_derive_rows (raws : list raw_row) (rs : list row) :
  mapM derive raws = inr rs ->
  Forall2 (fun raw r => exists t, to_datetime (raw_Date raw) = inr t /\
                                  r = derived raw t) raws rs.
Proof.
  intro Hm. apply mapM_inr in Hm.
  induction Hm as [| raw r l l' Hd _ IH]; constructor; [| exact IH].
  unfold derive in Hd. apply bind_inr in Hd. destruct Hd as (t & Ht & Hr).
  exists t. split; [exact Ht | inversion Hr; reflexivity].
Qed.

(** X2.  A loaded table has one row per row of the sheet, in the order of the
    sheet.  The row keeps its identifiers and its ink colour, and each of
    its five numeric cells is the number read, or 0 where none could be
    read: a bad numeric cell never drops the row. *)
Theorem loaded_rows_follow_sheet (fs : filesystem) (file_path : string)
  (df : list scored_row) (total : nat) :
  load_data_body fs file_path = inr (df, total) ->
  exists sh,
    fs file_path = Workbook sh /\
    Forall2 (fun (raw : raw_row) (r : scored_row) =>
               ASIN r = raw_ASIN raw /\ Brand r = raw_Brand raw /\
               Date r = raw_Date raw /\ Ink_Color r = raw_Ink_Color raw /\
               Amount r = to_numeric_fillna0 (raw_Amount raw) /\
               Sales r = to_numeric_fillna0 (raw_Sales raw) /\
               Price r = to_numeric_fillna0 (raw_Price raw) /\
               Rate r = to_numeric_fillna0 (raw_Rate raw) /\
               产品支数 r = to_numeric_fillna0 (raw_产品支数 raw))
            (rows sh) df.
Proof.
  intro Hl.
  destruct (load_data_body_inr _ _ Hl) as (sh & rs & Hfs & Hrs & _ & Hdf).
  exists sh. split; [exact Hfs |]. subst df.
  apply mapM_derive_rows in Hrs. clear Hl Hfs.
  generalize (groupby_count ASIN rs). intro counts.
  induction Hrs as [| raw r l l' (t & _ & ->) _ IH]; simpl;
    [constructor | constructor; [| exact IH]].
  repeat split.
Qed.

Lemma loaded_rows_follow_sheet_witness :
  load_data_body (disk two_brand_sheet) EXCEL_FILE =
    inr (fst (snd (load_data_local (disk two_brand_sheet) EXCEL_FILE)), 2%nat) /\
  exists sh,
    disk two_brand_sheet EXCEL_FILE = Workbook sh /\
    Forall2 (fun (raw : raw_row) (r : scored_row) =>
               ASIN r = raw_ASIN raw /\ Brand r = raw_Brand raw /\
               Date r = raw_Date raw /\ Ink_Color r = raw_Ink_Color raw /\
               Amount r = to_numeric_fillna0 (raw_Amount raw) /\
               Sales r = to_numeric_fillna0 (raw_Sales raw) /\
               Price r = to_numeric_fillna0 (raw_Price raw) /\
               Rate r = to_numeric_fillna0 (raw_Rate raw) /\
               产品支数 r = to_numeric_fillna0 (raw_产品支数 raw))
            (rows sh)
            (fst (snd (load_data_local (disk two_brand_sheet) EXCEL_FILE))).
Proof.
  split; [reflexivity |].
  apply (@loaded_rows_follow_sheet (disk two_brand_sheet) EXCEL_FILE
           (fst (snd (load_data_local (disk two_brand_sheet) EXCEL_FILE)))
           2%nat).
  reflexivity.
Defined.

(** X3.  Two rows of a loaded table with the same ASIN carry the same
    months-listed value and the same score, whatever their brands, dates
    and amounts. *)
Theorem same_asin_same_score (fs : filesystem) (file_path : string)
  (df : list scored_row) (total : nat) (r r' : scored_row) :
  snd (load_data_local fs file_path) = (df, total) ->
  In r df -> In r' df -> ASIN r = ASIN r' ->
  在榜月数 r = 在榜月数 r' /\ 稳定性评分 r = 稳定性评分 r'.
Proof.
  intros Hl Hr Hr' Ha.
  destruct (@loaded_row_score fs file_path df total r Hl Hr) as (Hm & Hs & _).
  destruct (@loaded_row_score fs file_path df total r' Hl Hr') as (Hm' & Hs' & _).
  rewrite Hm, Hm', Hs, Hs', Ha. split; reflexivity.
Qed.

Lemma same_asin_same_score_witness :
  let df := fst (snd (load_data_local (disk repeated_sheet) EXCEL_FILE)) in
  exists r r' : scored_row,
    nth_error df 0 = Some r /\ nth_error df 2 = Some r' /\
    snd (load_data_local (disk repeated_sheet) EXCEL_FILE) = (df, 2%nat) /\
    In r df /\ In r' df /\ ASIN r = ASIN r' /\
    在榜月数 r = 在榜月数 r' /\ 稳定性评分 r = 稳定性评分 r'.
Proof.
  cbv zeta. eexists. eexists.
  split; [reflexivity |]. split; [reflexivity |].
  assert (Hl : snd (load_data_local (disk repeated_sheet) EXCEL_FILE) =
               (fst (snd (load_data_local (disk repeated_sheet) EXCEL_FILE)),
                2%nat)) by reflexivity.
  split; [exact Hl |].
  split; [left; reflexivity |].
  split; [right; right; left; reflexivity |].
  split; [reflexivity |].
  apply (@same_asin_same_score (disk repeated_sheet) EXCEL_FILE _ 2%nat _ _ Hl).
  - left; reflexivity.
  - right; right; left; reflexivity.
  - reflexivity.
Defined.





(* ------------------------------------------------------------------------- *)
(** ** Ratios and dates *)

Lemma ndiv_finite (x y : Q) :
  ~ (y == 0)%Q -> ndiv (Fin x) (Fin y) = Fin (x / y).
Proof.
  intro Hy. unfold ndiv.
  destruct (Qeq_bool y 0) eqn:E; [| reflexivity].
  apply Qeq_bool_eq in E. contradiction.
Qed.



Lemma to_datetime_range (d y m : Z) :
  to_datetime d = inr (y, m) ->
  (1000 <= y <= 9999)%Z /\ (1 <= m <= 12)%Z /\
  (d = 100 * y + m \/ d = 10 * y + m)%Z.
Proof.
  unfold to_datetime, ret, raise. intro H.
  destruct ((100000 <=? d)%Z && (d <=? 999999)%Z) eqn:E6.
  - destruct ((1 <=? d mod 100)%Z && (d mod 100 <=? 12)%Z) eqn:Em;
      [| discriminate].
    inversion H; subst. clear H.
    apply andb_true_iff in E6, Em. destruct E6 as [A B], Em as [C D].
    apply Z.leb_le in A, B, C, D.
    repeat split; try left; Z.div_mod_to_equations; lia.
  - destruct ((10000 <=? d)%Z && (d <=? 99999)%Z) eqn:E5; [| discriminate].
    destruct (1 <=? d mod 10)%Z eqn:Em; [| discriminate].
    inversion H; subst. clear H.
    apply andb_true_iff in E5. destruct E5 as [A B].
    apply Z.leb_le in A, B, Em.
    repeat split; try right; Z.div_mod_to_equations; lia.
Qed.

(** X7.  A date that parses has a four-digit year and a month from 1 to 12, so
    the quarter of line 25 is one of 1, 2, 3, 4; the raw date is the year
    followed by the month, written on two digits or on one. *)
Theorem to_datetime_bounds (d y m : Z) :
  to_datetime d = inr (y, m) ->
  (1000 <= y <= 9999)%Z /\ (1 <= m <= 12)%Z /\
  (1 <= (m - 1) / 3 + 1 <= 4)%Z /\
  (d = 100 * y + m \/ d = 10 * y + m)%Z.
Proof.
  intro H. destruct (to_datetime_range _ H) as (Hy & Hm & Hd).
  split; [exact Hy |]. split; [exact Hm |]. split; [| exact Hd].
  Z.div_mod_to_equations. lia.
Qed.

Lemma to_datetime_bounds_witness :
  to_datetime 202411 = inr (2024%Z, 11%Z) /\
  (1000 <= 2024 <= 9999)%Z /\ (1 <= 11 <= 12)%Z /\
  (1 <= (11 - 1) / 3 + 1 <= 4)%Z /\
  (202411 = 100 * 2024 + 11 \/ 202411 = 10 * 2024 + 11)%Z.
Proof.
  split; [reflexivity |].
  apply (@to_datetime_bounds 202411 2024 11). reflexivity.
Defined.

(* ------------------------------------------------------------------------- *)
(** ** The sidebar and the run of the script *)

(** X8.  With the default selection of line 67, all the brands of the table, the
    filter of line 68 keeps every row. *)
Theorem default_selection_keeps_table (df : list scored_row) :
  df_filtered df (all_brands df) = df.
Proof.
  unfold df_filtered. apply forallb_filter_id, forallb_forall.
  intros r Hr. unfold isin. apply existsb_keqb.
  change (all_brands df)
    with (sort_unique (map (fun r0 : scored_row => Brand r0) df)).
  apply In_sort_unique.
  apply (in_map (fun r0 : scored_row => Brand r0)), Hr.
Qed.



(* ------------------------------------------------------------------------- *)
(** ** Group-by sums *)

Section GroupBySums.

Context {R K : Type} {HK : Key K} {LK : KeyLaws HK}.
Variable key : R -> K.
Variable val : R -> Q.



(** The labels of a group-by sum are the keys that occur in the table, each
    once. *)
Lemma groupby_sum_labels_NoDup (df : list R) :
  NoDup (map fst (groupby_sum key val df)) /\
  forall k, In k (map fst (groupby_sum key val df)) <-> In k (map key df).
Proof.
  rewrite groupby_sum_labels. split; [apply NoDup_sort_unique |].
  intro k. apply In_sort_unique.
Qed.

(** Filtering the rows on a property of their key only removes groups: a
    group that stays keeps its sum, a group that goes leaves no entry. *)
Theorem groupby_sum_of_filtered (keep : K -> bool) (k : K) (df : list R) :
  lookup k (groupby_sum key val (filter (fun r => keep (key r)) df)) =
  if keep k then lookup k (groupby_sum key val df) else None.
Proof.
  unfold groupby_sum.
  rewrite (lookup_map
             (fun k0 => sumQ (map val (filter (fun r => keqb (key r) k0)
                                 (filter (fun r => keep (key r)) df))))).
  rewrite (lookup_map
             (fun k0 => sumQ (map val (filter (fun r => keqb (key r) k0) df)))).
  assert (Hin : In k (map key (filter (fun r => keep (key r)) df)) <->
                keep k = true /\ In k (map key df)).
  { rewrite !in_map_iff. split.
    - intros (r & <- & Hr). apply filter_In in Hr. destruct Hr as [Hr Hk].
      split; [exact Hk | eauto].
    - intros (Hk & r & <- & Hr). exists r. split; [reflexivity |].
      apply filter_In. split; assumption. }
  destruct (keep k) eqn:Hk.
  - assert (Hf : filter (fun r => keqb (key r) k)
                        (filter (fun r => keep (key r)) df) =
                 filter (fun r => keqb (key r) k) df).
    { clear Hin. induction df as [| r t IH]; simpl; [reflexivity |].
      destruct (keqb_spec (key r) k) as [E | N].
      - rewrite E, Hk. simpl. rewrite E, keqb_refl, IH. reflexivity.
      - destruct (keep (key r)); simpl; [| exact IH].
        destruct (keqb_spec (key r) k); [contradiction | exact IH]. }
    rewrite Hf.
    destruct (existsb (keqb k) (sort_unique (map key df))) eqn:E.
    + replace (existsb (keqb k)
                 (sort_unique (map key (filter (fun r => keep (key r)) df))))
        with true; [reflexivity |].
      symmetry. apply existsb_keqb, In_sort_unique, Hin.
      split; [reflexivity |]. apply In_sort_unique, existsb_keqb, E.
    + replace (existsb (keqb k)
                 (sort_unique (map key (filter (fun r => keep (key r)) df))))
        with false; [reflexivity |].
      symmetry. apply not_true_iff_false. intro H.
      apply existsb_keqb, In_sort_unique, Hin in H. destruct H as [_ H].
      apply In_sort_unique, existsb_keqb in H. congruence.
  - replace (existsb (keqb k)
               (sort_unique (map key (filter (fun r => keep (key r)) df))))
      with false; [reflexivity |].
    symmetry. apply not_true_iff_false. intro H.
    apply existsb_keqb, In_sort_unique, Hin in H. destruct H; discriminate.
Qed.

End GroupBySums.

(** X11.  Line 80 under the brand filter: the monthly sum of a selected brand is
    the sum it has over the whole table, and a brand that is not selected
    has no entry.  Selecting brands removes series from the chart and
    changes none of the numbers shown. *)
Theorem monthly_sales_of_selection (float_repr : Q -> string)
  (df : list scored_row) (selected_brands : list string)
  (month brand : string) :
  lookup (month, brand)
         (monthly_sales (render float_repr df selected_brands)) =
  if isin brand selected_brands
  then lookup (month, brand)
              (groupby_sum (fun r : scored_row => (Date_Str r, Brand r))
                           (fun r : scored_row => Amount r) df)
  else None.
Proof.
  cbn [monthly_sales render]. unfold df_filtered.
  exact (groupby_sum_of_filtered
           (fun r : scored_row => (Date_Str r, Brand r))
           (fun r : scored_row => Amount r)
           (fun k : string * string => isin (snd k) selected_brands)
           (month, brand) df).
Qed.

(* ------------------------------------------------------------------------- *)
(** ** Sorted labels *)

Lemma string_leb_trans (a b c : string) :
  String.leb a b = true -> String.leb b c = true -> String.leb a c = true.
Proof.
  unfold String.leb. revert b c.
  induction a as [| x a IH]; intros [| y b] [| z c]; simpl;
    try reflexivity; try discriminate.
  unfold Ascii.compare.
  destruct (N.compare_spec (N_of_ascii x) (N_of_ascii y)) as [Exy | Lxy | Gxy];
    destruct (N.compare_spec (N_of_ascii y) (N_of_ascii z)) as [Eyz | Lyz | Gyz];
    destruct (N.compare_spec (N_of_ascii x) (N_of_ascii z)) as [Exz | Lxz | Gxz];
    try discriminate; try reflexivity; try lia.
  apply IH.
Qed.

#[export] Instance KeyOrder_string : KeyOrder Key_string.
Proof.
  constructor.
  - exact String.leb_total.
  - exact string_leb_trans.
  - exact String.leb_antisym.
Qed.

#[export] Instance KeyOrder_Z : KeyOrder Key_Z.
Proof.
  constructor; simpl; intros; rewrite ?Z.leb_le in *; lia.
Qed.

#[export] Instance KeyOrder_pair {A B : Type} {HA : Key A} {HB : Key B}
  {LA : KeyLaws HA} {OA : KeyOrder HA} {OB : KeyOrder HB} :
  KeyOrder (@Key_pair A B HA HB).
Proof.
  constructor.
  - intros [a b] [a' b']; simpl.
    destruct (keqb_spec a a') as [-> | N].
    + rewrite keqb_refl. apply kleb_total.
    + destruct (keqb_spec a' a) as [E | _]; [congruence | apply kleb_total].
  - intros [a b] [a' b'] [a'' b'']; simpl.
    destruct (keqb_spec a a') as [-> | N1];
      destruct (keqb_spec a' a'') as [-> | N2].
    + apply kleb_trans.
    + auto.
    + destruct (keqb_spec a a''); [contradiction | auto].
    + intros H1 H2. destruct (keqb_spec a a'') as [-> | N3].
      * elim N1. apply kleb_antisym; assumption.
      * exact (kleb_trans _ _ _ H1 H2).
  - intros [a b] [a' b']; simpl.
    destruct (keqb_spec a a') as [-> | N].
    + rewrite keqb_refl. intros H1 H2. f_equal. apply kleb_antisym; assumption.
    + destruct (keqb_spec a' a) as [E | _]; [congruence |].
      intros H1 H2. elim N. apply kleb_antisym; assumption.
Qed.

Section SortedLabels.

Context {K : Type} {HK : Key K} {LK : KeyLaws HK} {OK : KeyOrder HK}.

Lemma insert_sorted_Sorted (x : K) (l : list K) :
  Sorted (fun a b => kleb a b = true) l ->
  Sorted (fun a b => kleb a b = true) (insert_sorted x l).
Proof.
  induction l as [| a t IH]; simpl; intro Hs.
  - repeat constructor.
  - destruct (kleb x a) eqn:E.
    + constructor; [exact Hs | constructor; exact E].
    + inversion Hs as [| ? ? Ht Hhd]; subst.
      constructor; [apply IH; exact Ht |].
      assert (Hax : kleb a x = true).
      { destruct (kleb_total a x) as [H | H]; [exact H | congruence]. }
      destruct t as [| b t']; simpl; [constructor; exact Hax |].
      destruct (kleb x b); constructor; [exact Hax |].
      inversion Hhd; assumption.
Qed.

Lemma sorted_Sorted (l : list K) :
  Sorted (fun a b => kleb a b = true) (sorted l).
Proof.
  induction l as [| x t IH]; simpl; [constructor |].
  apply insert_sorted_Sorted, IH.
Qed.

(** The labels of a group-by result come in strictly ascending order of the
    key: each label stands before every later one and differs from it. *)
Lemma sort_unique_ascending (l : list K) :
  StronglySorted (fun a b => kleb a b = true /\ a <> b) (sort_unique l).
Proof.
  assert (Hs : StronglySorted (fun a b => kleb a b = true) (sort_unique l)).
  { apply Sorted_StronglySorted; [| apply sorted_Sorted].
    intros a b c. apply kleb_trans. }
  assert (Hnd := NoDup_sort_unique l).
  induction Hs as [| a t Hs IH Hall]; [constructor |].
  inversion Hnd as [| ? ? Hnotin Hnd']; subst.
  constructor; [exact (IH Hnd') |].
  rewrite Forall_forall in *. intros b Hb. split; [exact (Hall b Hb) |].
  intros ->. contradiction.
Qed.

End SortedLabels.

(** The rows of a group-by sum stand in strictly ascending order of their
    labels, and there is exactly one row for each key of the table. *)
Theorem groupby_sum_labels_ascending {R K : Type} {HK : Key K}
  {LK : KeyLaws HK} {OK : KeyOrder HK} (key : R -> K) (val : R -> Q)
  (df : list R) :
  StronglySorted (fun a b => kleb a b = true /\ a <> b)
                 (map fst (groupby_sum key val df)) /\
  forall k, In k (map fst (groupby_sum key val df)) <-> In k (map key df).
Proof.
  rewrite groupby_sum_labels. split; [apply sort_unique_ascending |].
  intro k. apply In_sort_unique.
Qed.

(* ------------------------------------------------------------------------- *)
(** ** Pivot tables *)

(** X15.  Each cell of a pivot table is the total of [Amount] over the rows of
    its period and category, and the table is rectangular: one row of cells
    per label of the index, one cell per label of the header.  A pair of
    labels that no row carries gets 0, the fill value. *)
Theorem pivot_cell_is_group_total {I C : Type} {HI : Key I} {HC : Key C}
  {LI : KeyLaws HI} {LC : KeyLaws HC}
  (period : scored_row -> I) (category : scored_row -> C)
  (df : list scored_row) (i j : nat) (p : I) (c : C) :
  nth_error (index (pivot_sum period category df)) i = Some p ->
  nth_error (header (pivot_sum period category df)) j = Some c ->
  exists cells : list Q,
    nth_error (values (pivot_sum period category df)) i = Some cells /\
    List.length cells = List.length (header (pivot_sum period category df)) /\
    nth_error cells j = Some (cell_total period category p c df) /\
    ((forall r, In r df -> (period r, category r) <> (p, c)) ->
     cell_total period category p c df = 0%Q).
Proof.
  intros Hi Hj.
  exists (map (fun c0 => cell_total period category p c0 df)
              (header (pivot_sum period category df))).
  split; [rewrite pivot_sum_values, nth_error_map, Hi; reflexivity |].
  split; [apply length_map |].
  split; [rewrite nth_error_map, Hj; reflexivity |].
  intro Hnone. unfold cell_total.
  rewrite (filter_absent (fun r : scored_row => (period r, category r)));
    [reflexivity |].
  intro Hin. apply in_map_iff in Hin. destruct Hin as (r & E & Hr).
  exact (Hnone r Hr E).
Qed.

Lemma pivot_cell_is_group_total_witness :
  let df := fst (snd (load_data_local (disk two_brand_sheet) EXCEL_FILE)) in
  nth_error (index (q_data df)) 0 = Some "2024Q1" /\
  nth_error (header (q_data df)) 1 = Some "Posca" /\
  exists cells : list Q,
    nth_error (values (q_data df)) 0 = Some cells /\
    List.length cells = List.length (header (q_data df)) /\
    nth_error cells 1 =
      Some (cell_total (fun r : scored_row => Quarter r)
                       (fun r : scored_row => Brand r) "2024Q1" "Posca" df) /\
    ((forall r : scored_row,
        In r df -> (Quarter r, Brand r) <> ("2024Q1", "Posca")) ->
     cell_total (fun r : scored_row => Quarter r)
                (fun r : scored_row => Brand r) "2024Q1" "Posca" df = 0%Q).
Proof.
  cbv zeta. split; [reflexivity |]. split; [reflexivity |].
  apply (@pivot_cell_is_group_total string string _ _ _ _
           (fun r : scored_row => Quarter r) (fun r : scored_row => Brand r)
           (fst (snd (load_data_local (disk two_brand_sheet) EXCEL_FILE)))
           0%nat 1%nat "2024Q1" "Posca"); reflexivity.
Defined.

Lemma year_shares_sum_to_one_witness :
  let df := fst (snd (load_data_local (disk two_brand_sheet) EXCEL_FILE)) in
  nth_error (index (y_data df)) 0 = Some 2024%Z /\
  exists cells : list Q,
    nth_error (values (y_data df)) 0 = Some cells /\
    (sumQ cells == period_total (fun r : scored_row => Year r) 2024%Z df)%Q /\
    (~ (sumQ cells == 0)%Q ->
     exists (shares : list num) (s : Q),
       nth_error (values (y_share (render one_digit_repr df ["Ohuhu"]))) 0 =
         Some shares /\
       nsum shares = Fin s /\ (s == 1)%Q).
Proof.
  cbv zeta. split; [reflexivity |].
  apply (@year_shares_sum_to_one one_digit_repr
           (fst (snd (load_data_local (disk two_brand_sheet) EXCEL_FILE)))
           ["Ohuhu"] 0%nat 2024%Z).
  reflexivity.
Defined.



(* ------------------------------------------------------------------------- *)
(** ** Change past the lag *)

Lemma combine_map_snd {A B C : Type} (f : B -> C) (l : list A) (l' : list B) :
  combine l (map f l') = map (fun xy => (fst xy, f (snd xy))) (combine l l').
Proof.
  revert l'; induction l as [| a t IH]; intros [| b t']; simpl;
    try reflexivity.
  rewrite IH. reflexivity.
Qed.

(** From the row after the lag on, a row of [pct_change] is the row of the
    table against the row [periods] places above it. *)
Lemma pct_change_past_lag {I C : Type} (periods : nat) (f : frame I C Q)
  (n : nat) (prev cur : list Q) :
  nth_error (values f) n = Some prev ->
  nth_error (values f) (n + periods) = Some cur ->
  nth_error (values (pct_change periods f)) (n + periods) =
  Some (map (fun xp : Q * Q => nsub (ndiv (Fin (fst xp)) (Fin (snd xp))) (Fin 1))
            (combine cur prev)).
Proof.
  intros Hprev Hcur.
  assert (Hn : (n + periods < List.length (values f))%nat).
  { apply nth_error_Some. rewrite Hcur. discriminate. }
  assert (Hshift : nth_error (shift periods f) (n + periods) =
                   Some (map Fin prev)).
  { unfold shift. rewrite nth_error_firstn.
    apply Nat.ltb_lt in Hn. rewrite Hn.
    rewrite nth_error_app2 by (rewrite repeat_length; lia).
    rewrite repeat_length.
    replace (n + periods - periods)%nat with n by lia.
    rewrite nth_error_map, Hprev. reflexivity. }
  unfold pct_change. cbn [values].
  rewrite nth_error_map, (nth_error_combine _ _ _ Hcur Hshift).
  cbn [option_map fst snd]. rewrite combine_map_snd, map_map. reflexivity.
Qed.

(** X18.  A cell of the year-over-year table past the first four quarters.  With
    [x] the amount of the brand in the quarter and [p] its amount four rows
    above: the cell is x/p - 1 when [p] is not zero; when [p] is zero, as it
    is for a brand that [unstack] filled with 0, the cell is plus infinity
    if the brand sells now and NaN if it does not. *)
Theorem yoy_cell_past_lag (float_repr : Q -> string) (df : list scored_row)
  (selected_brands : list string) (n j : nat) (prev cur : list Q) (p x : Q) :
  nth_error (values (q_data df)) n = Some prev ->
  nth_error (values (q_data df)) (n + 4) = Some cur ->
  nth_error prev j = Some p ->
  nth_error cur j = Some x ->
  exists (row : list num) (y : num),
    nth_error (values (q_yoy (render float_repr df selected_brands))) (n + 4) =
      Some row /\
    nth_error row j = Some y /\
    (~ (p == 0)%Q -> y = Fin (x / p + - (1))%Q) /\
    ((p == 0)%Q -> (0 < x)%Q -> y = PInf) /\
    ((p == 0)%Q -> (x == 0)%Q -> y = NaN).
Proof.
  intros Hprev Hcur Hp Hx.
  exists (map (fun xp : Q * Q =>
                 nsub (ndiv (Fin (fst xp)) (Fin (snd xp))) (Fin 1))
              (combine cur prev)),
         (nsub (ndiv (Fin x) (Fin p)) (Fin 1)).
  split; [exact (pct_change_past_lag 4 (q_data df) n Hprev Hcur) |].
  split.
  - rewrite nth_error_map, (nth_error_combine _ _ _ Hx Hp). reflexivity.
  - split; [| split].
    + intro Hnz. rewrite (ndiv_finite _ Hnz). reflexivity.
    + intros Hz Hpos. rewrite (ndiv_by_zero _ Hz). unfold over_zero.
      apply Qgt_alt in Hpos. rewrite Hpos. reflexivity.
    + intros Hz Hx0. rewrite (ndiv_by_zero _ Hz). unfold over_zero.
      apply Qeq_alt in Hx0. rewrite Hx0. reflexivity.
Qed.

Lemma yoy_cell_past_lag_witness :
  let df := fst (snd (load_data_local (disk six_quarter_sheet) EXCEL_FILE)) in
  nth_error (values (q_data df)) 0 = Some [10%Q] /\
  nth_error (values (q_data df)) (0 + 4) = Some [15%Q] /\
  nth_error [10%Q] 0 = Some 10%Q /\
  nth_error [15%Q] 0 = Some 15%Q /\
  exists (row : list num) (y : num),
    nth_error (values (q_yoy (render one_digit_repr df ["Ohuhu"]))) (0 + 4) =
      Some row /\
    nth_error row 0 = Some y /\
    (~ (10 == 0)%Q -> y = Fin (15 / 10 + - (1))%Q) /\
    ((10 == 0)%Q -> (0 < 15)%Q -> y = PInf) /\
    ((10 == 0)%Q -> (15 == 0)%Q -> y = NaN).
Proof.
  cbv zeta.
  split; [reflexivity |]. split; [reflexivity |].
  split; [reflexivity |]. split; [reflexivity |].
  apply (@yoy_cell_past_lag one_digit_repr
           (fst (snd (load_data_local (disk six_quarter_sheet) EXCEL_FILE)))
           ["Ohuhu"] 0%nat 0%nat [10%Q] [15%Q] 10%Q 15%Q); reflexivity.
Defined.

(* ------------------------------------------------------------------------- *)
(** ** Group means *)






(* ------------------------------------------------------------------------- *)
(** ** The ASIN table and its ranking *)

Lemma In_unique_sub {K : Type} {HK : Key K} (x : K) (l : list K) :
  In x (unique l) -> In x l.
Proof.
  induction l as [| a t IH]; simpl; [tauto |].
  intros [-> | Hin]; [left; reflexivity |].
  right. apply IH. apply filter_In in Hin. apply Hin.
Qed.

Lemma In_sort_unique_sub {K : Type} {HK : Key K} (x : K) (l : list K) :
  In x (sort_unique l) -> In x l.
Proof.
  intro Hin. apply In_unique_sub. unfold sort_unique in Hin.
  revert Hin. generalize (unique l). intro u.
  induction u as [| a t IH]; simpl; [tauto |].
  generalize dependent (sorted t). intros s IH.
  induction s as [| b s IHs]; simpl.
  - intros [-> | []]. left; reflexivity.
  - destruct (kleb a b); simpl.
    + intros [-> | [-> | Hin]]; [left; reflexivity | |].
      * right. apply IH. left; reflexivity.
      * right. apply IH. right; exact Hin.
    + intros [-> | Hin].
      * right. apply IH. left; reflexivity.
      * destruct (IHs (fun H => IH (or_intror H)) Hin) as [-> | H];
          [left; reflexivity | right; exact H].
Qed.

Lemma attr_key_refl (r : listing) : keqb (attr_key r) (attr_key r) = true.
Proof.
  unfold attr_key; simpl.
  rewrite !String.eqb_refl, Qeq_bool_refl. reflexivity.
Qed.

Lemma attr_key_same (r r' : listing) :
  keqb (attr_key r) (attr_key r') = true ->
  ASIN r = ASIN r' /\ Brand r = Brand r'.
Proof.
  unfold attr_key; simpl. rewrite !andb_true_iff, !String.eqb_eq. tauto.
Qed.

Lemma max_months_constant (v : option nat) (l : list (option nat)) :
  l <> [] -> Forall (fun v' => v' = v) l -> max_months l = v.
Proof.
  intros Hne Hall. induction Hall as [| x t Hx Ht IH]; [contradiction |].
  subst x. destruct t as [| y t'].
  - destruct v; reflexivity.
  - specialize (IH ltac:(discriminate)).
    cbn [max_months] in *. destruct v as [n |].
    + rewrite IH, Nat.max_id. reflexivity.
    + exact IH.
Qed.

(** X23.  In a table where the rows of one ASIN carry one months-listed value, as
    a loaded table does, each row of the ASIN table describes rows that
    exist, and its 'max' of 在榜月数 is simply the value of those rows. *)
Theorem asin_attr_months (filtered : list listing) (a : asin_attr_row) :
  (forall r r' : listing, In r filtered -> In r' filtered ->
                          ASIN r = ASIN r' -> 在榜月数 r = 在榜月数 r') ->
  In a (asin_attr filtered) ->
  exists r : listing,
    In r filtered /\ ASIN r = attr_ASIN a /\ Brand r = attr_Brand a /\
    attr_在榜月数 a = 在榜月数 r.
Proof.
  intros Hconst Hin. unfold asin_attr in Hin.
  apply in_map_iff in Hin. destruct Hin as (k & <- & Hk).
  apply In_sort_unique_sub in Hk.
  apply in_map_iff in Hk. destruct Hk as (r0 & <- & Hr0).
  exists r0. split; [exact Hr0 |].
  unfold aggregate, attr_key at 1. cbn [attr_ASIN attr_Brand attr_在榜月数].
  split; [reflexivity |]. split; [reflexivity |].
  apply max_months_constant.
  - assert (Hg : In r0 (filter (fun r => keqb (attr_key r) (attr_key r0))
                               filtered)).
    { apply filter_In. split; [exact Hr0 | apply attr_key_refl]. }
    destruct (filter (fun r => keqb (attr_key r) (attr_key r0)) filtered);
      [destruct Hg | discriminate].
  - apply Forall_forall. intros v Hv.
    apply in_map_iff in Hv. destruct Hv as (r & <- & Hr).
    apply filter_In in Hr. destruct Hr as [Hr Hkey].
    apply attr_key_same in Hkey. apply Hconst; tauto.
Qed.

Lemma sample_listings_months (r r' : listing) :
  In r sample_listings -> In r' sample_listings ->
  ASIN r = ASIN r' -> 在榜月数 r = 在榜月数 r'.
Proof.
  intros Hr Hr' E. vm_compute in Hr, Hr'.
  repeat (destruct Hr as [<- | Hr]; [| try contradiction]);
    repeat (destruct Hr' as [<- | Hr']; [| try contradiction]);
    try reflexivity; discriminate E.
Qed.

Lemma asin_attr_months_witness :
  exists a : asin_attr_row,
    hd_error (asin_attr sample_listings) = Some a /\
    (forall r r' : listing, In r sample_listings -> In r' sample_listings ->
                            ASIN r = ASIN r' -> 在榜月数 r = 在榜月数 r') /\
    In a (asin_attr sample_listings) /\
    exists r : listing,
      In r sample_listings /\ ASIN r = attr_ASIN a /\ Brand r = attr_Brand a /\
      attr_在榜月数 a = 在榜月数 r.
Proof.
  eexists. split; [reflexivity |].
  split; [exact sample_listings_months |].
  assert (Hin : In (aggregate ("A1", "Ohuhu", "Yes", "Pump", 24%Q, "Fine")
                      (filter (fun r => keqb (attr_key r)
                                 ("A1", "Ohuhu", "Yes", "Pump", 24%Q, "Fine"))
                              sample_listings))
                   (asin_attr sample_listings)) by (left; reflexivity).
  split; [exact Hin |].
  exact (@asin_attr_months sample_listings _ sample_listings_months Hin).
Defined.

Lemma ranks_before_total (a b : asin_attr_row) :
  ranks_before a b = true \/ ranks_before b a = true.
Proof.
  unfold ranks_before.
  destruct (attr_在榜月数 a) as [x |], (attr_在榜月数 b) as [y |]; auto.
  - destruct (Nat.eqb_spec x y) as [-> | N].
    + rewrite Nat.eqb_refl, !Qle_bool_iff.
      destruct (Qlt_le_dec (attr_Amount a) (attr_Amount b)) as [H | H];
        [right; apply Qlt_le_weak, H | left; exact H].
    + destruct (Nat.eqb_spec y x) as [E | _]; [congruence |].
      rewrite !Nat.ltb_lt. lia.
  - rewrite !Qle_bool_iff.
    destruct (Qlt_le_dec (attr_Amount a) (attr_Amount b)) as [H | H];
      [right; apply Qlt_le_weak, H | left; exact H].
Qed.

Lemma ranks_before_trans (a b c : asin_attr_row) :
  ranks_before a b = true -> ranks_before b c = true ->
  ranks_before a c = true.
Proof.
  unfold ranks_before.
  destruct (attr_在榜月数 a) as [x |], (attr_在榜月数 b) as [y |],
           (attr_在榜月数 c) as [z |]; try discriminate; auto.
  - destruct (Nat.eqb_spec x y) as [E1 | N1];
      destruct (Nat.eqb_spec y z) as [E2 | N2];
      destruct (Nat.eqb_spec x z) as [E3 | N3];
      rewrite ?Qle_bool_iff, ?Nat.ltb_lt; intros H1 H2;
      try lia; try exact (Qle_trans _ _ _ H2 H1).
  - rewrite !Qle_bool_iff. intros H1 H2. exact (Qle_trans _ _ _ H2 H1).
Qed.

Lemma insert_ranked_perm (a : asin_attr_row) (l : list asin_attr_row) :
  Permutation (insert_ranked a l) (a :: l).
Proof.
  induction l as [| b t IH]; simpl; [reflexivity |].
  destruct (ranks_before a b); [reflexivity |].
  rewrite IH. apply perm_swap.
Qed.

Lemma sort_by_months_amount_desc_perm (l : list asin_attr_row) :
  Permutation (sort_by_months_amount_desc l) l.
Proof.
  induction l as [| a t IH]; simpl; [reflexivity |].
  rewrite insert_ranked_perm. constructor. exact IH.
Qed.

Lemma insert_ranked_Sorted (a : asin_attr_row) (l : list asin_attr_row) :
  Sorted (fun x y => ranks_before x y = true) l ->
  Sorted (fun x y => ranks_before x y = true) (insert_ranked a l).
Proof.
  induction l as [| b t IH]; simpl; intro Hs.
  - repeat constructor.
  - destruct (ranks_before a b) eqn:E.
    + constructor; [exact Hs | constructor; exact E].
    + inversion Hs as [| ? ? Ht Hhd]; subst.
      constructor; [apply IH; exact Ht |].
      assert (Hba : ranks_before b a = true).
      { destruct (ranks_before_total b a) as [H | H]; [exact H | congruence]. }
      destruct t as [| c t']; simpl; [constructor; exact Hba |].
      destruct (ranks_before a c); constructor; [exact Hba |].
      inversion Hhd; assumption.
Qed.

Lemma sort_by_months_amount_desc_Sorted (l : list asin_attr_row) :
  StronglySorted (fun x y => ranks_before x y = true)
                 (sort_by_months_amount_desc l).
Proof.
  apply Sorted_StronglySorted; [intros a b c; apply ranks_before_trans |].
  induction l as [| a t IH]; simpl; [constructor |].
  apply insert_ranked_Sorted, IH.
Qed.

Lemma StronglySorted_app_inv {A : Type} (R : A -> A -> Prop) (l1 l2 : list A) :
  StronglySorted R (l1 ++ l2) ->
  StronglySorted R l1 /\
  forall a b, In a l1 -> In b l2 -> R a b.
Proof.
  induction l1 as [| x t IH]; simpl; intro Hs.
  - split; [constructor | intros a b []].
  - inversion Hs as [| ? ? Ht Hall]; subst.
    destruct (IH Ht) as [Hs1 Hcross]. split.
    + constructor; [exact Hs1 |].
      rewrite Forall_forall in *. intros y Hy. apply Hall, in_or_app; auto.
    + intros a b [<- | Ha] Hb.
      * rewrite Forall_forall in Hall. apply Hall, in_or_app; auto.
      * apply Hcross; assumption.
Qed.

(** X24.  The top-20 list of line 138 holds twenty rows of the ASIN table, or all
    of them when there are fewer; it runs by descending 在榜月数 and, at
    equal 在榜月数, by descending Amount; and no row left out ranks above
    a row that is in. *)
Theorem top_stable_ranking (filtered : list listing) :
  List.length (top_stable filtered) =
    Nat.min 20 (List.length (asin_attr filtered)) /\
  StronglySorted (fun x y => ranks_before x y = true) (top_stable filtered) /\
  exists rest : list asin_attr_row,
    Permutation (top_stable filtered ++ rest) (asin_attr filtered) /\
    forall a b, In a (top_stable filtered) -> In b rest ->
                ranks_before a b = true.
Proof.
  unfold top_stable.
  set (s := sort_by_months_amount_desc (asin_attr filtered)).
  assert (Hperm : Permutation s (asin_attr filtered))
    by apply sort_by_months_amount_desc_perm.
  assert (Hs : StronglySorted (fun x y => ranks_before x y = true)
                              (firstn 20 s ++ skipn 20 s)).
  { rewrite firstn_skipn. apply sort_by_months_amount_desc_Sorted. }
  apply StronglySorted_app_inv in Hs. destruct Hs as [Htop Hcross].
  split; [rewrite length_firstn, (Permutation_length Hperm); reflexivity |].
  split; [exact Htop |].
  exists (skipn 20 s). split; [rewrite firstn_skipn; exact Hperm | exact Hcross].
Qed.

(* ------------------------------------------------------------------------- *)
(** ** Quarter labels and time *)

Lemma string_ltb_leb (a b : string) :
  String.ltb a b = true <-> String.leb a b = true /\ a <> b.
Proof.
  unfold String.ltb, String.leb.
  destruct (String.compare a b) eqn:E.
  - split; [discriminate |].
    intros [_ N]. elim N. apply String.compare_eq_iff, E.
  - split; [| reflexivity].
    intros _. split; [reflexivity |]. intros ->.
    assert (H := String.compare_antisym b b). rewrite E in H.
    discriminate H.
  - split; [discriminate | intros [H _]; discriminate].
Qed.

Lemma string_leb_refl (a : string) : String.leb a a = true.
Proof. destruct (String.leb_total a a); assumption. Qed.

Lemma string_ltb_trans (a b c : string) :
  String.ltb a b = true -> String.ltb b c = true -> String.ltb a c = true.
Proof.
  rewrite !string_ltb_leb. intros [H1 N1] [H2 N2]. split.
  - exact (string_leb_trans _ _ _ H1 H2).
  - intros ->. apply N1. apply String.leb_antisym; assumption.
Qed.

Lemma labels_ascend_all : labels_ascend 0 (Z.to_nat 35999) = true.
Proof. vm_compute. reflexivity. Qed.

Lemma labels_ascend_step (n : nat) (i k : Z) :
  labels_ascend i n = true ->
  (i <= k < i + Z.of_nat n)%Z ->
  String.ltb (quarter_label k) (quarter_label (k + 1)) = true.
Proof.
  revert i; induction n as [| n IH]; intros i Ha Hk; [lia |].
  cbn [labels_ascend] in Ha. apply andb_true_iff in Ha. destruct Ha as [H0 Hn].
  destruct (Z.eq_dec k i) as [-> | N]; [exact H0 |].
  apply (IH (i + 1)%Z Hn). lia.
Qed.

Lemma quarter_label_next (k : Z) :
  (0 <= k < 35999)%Z ->
  String.ltb (quarter_label k) (quarter_label (k + 1)) = true.
Proof.
  intro Hk.
  apply (@labels_ascend_step (Z.to_nat 35999) 0%Z k labels_ascend_all).
  rewrite Z2Nat.id; lia.
Qed.

Lemma quarter_label_lt (i j : Z) :
  (0 <= i < j)%Z -> (j < 36000)%Z ->
  String.ltb (quarter_label i) (quarter_label j) = true.
Proof.
  intros Hij Hj.
  replace j with (i + Z.of_nat (S (Z.to_nat (j - i - 1))))%Z by lia.
  assert (Hn : (i + Z.of_nat (S (Z.to_nat (j - i - 1))) < 36000)%Z) by lia.
  revert Hn. generalize (Z.to_nat (j - i - 1)). intro n.
  induction n as [| n IH]; intro Hn.
  - change (Z.of_nat 1) with 1%Z. apply quarter_label_next. lia.
  - apply (string_ltb_trans _ (quarter_label (i + Z.of_nat (S n)))).
    + apply IH. lia.
    + replace (i + Z.of_nat (S (S n)))%Z with (i + Z.of_nat (S n) + 1)%Z by lia.
      apply quarter_label_next. lia.
Qed.

Lemma period_Q_quarter_label (y m : Z) :
  (1 <= m <= 12)%Z ->
  period_Q (y, m) = quarter_label (quarter_number (y, m)).
Proof.
  intro Hm. unfold quarter_label, quarter_number, period_Q. cbn [fst snd].
  replace (1000 + (4 * (y - 1000) + (m - 1) / 3) / 4)%Z with y
    by (Z.div_mod_to_equations; lia).
  replace ((3 * ((4 * (y - 1000) + (m - 1) / 3) mod 4) + 1 - 1) / 3 + 1)%Z
    with ((m - 1) / 3 + 1)%Z by (Z.div_mod_to_equations; lia).
  reflexivity.
Qed.

Lemma quarter_number_range (y m : Z) :
  (1000 <= y <= 9999)%Z -> (1 <= m <= 12)%Z ->
  (0 <= quarter_number (y, m) < 36000)%Z.
Proof.
  intros Hy Hm. unfold quarter_number; cbn [fst snd].
  Z.div_mod_to_equations; lia.
Qed.

Lemma period_Q_leb_iff (y m y' m' : Z) :
  (1000 <= y <= 9999)%Z -> (1 <= m <= 12)%Z ->
  (1000 <= y' <= 9999)%Z -> (1 <= m' <= 12)%Z ->
  (String.leb (period_Q (y, m)) (period_Q (y', m')) = true <->
   (quarter_number (y, m) <= quarter_number (y', m'))%Z).
Proof.
  intros Hy Hm Hy' Hm'.
  rewrite (period_Q_quarter_label y Hm), (period_Q_quarter_label y' Hm').
  assert (Hi := quarter_number_range Hy Hm).
  assert (Hj := quarter_number_range Hy' Hm').
  split.
  - intro Hle.
    destruct (Z.le_gt_cases (quarter_number (y, m)) (quarter_number (y', m')))
      as [H | H]; [exact H |].
    assert (Hlt : String.ltb (quarter_label (quarter_number (y', m')))
                             (quarter_label (quarter_number (y, m))) = true)
      by (apply quarter_label_lt; lia).
    apply string_ltb_leb in Hlt. destruct Hlt as [Hji N]. elim N.
    apply String.leb_antisym; assumption.
  - intro Hle.
    destruct (Z.eq_dec (quarter_number (y, m)) (quarter_number (y', m')))
      as [-> | N]; [apply string_leb_refl |].
    apply string_ltb_leb. apply quarter_label_lt; lia.
Qed.

(** X19.  The quarter labels of line 25 sort as time runs: for two dates that
    parse, the label of the first is at or before the label of the second
    in the order of strings exactly when its quarter is not later in time,
    that is when its year is earlier, or the year is the same and the
    quarter is not later. *)
Theorem quarter_labels_sort_by_time (d d' : Z) (t t' : Z * Z) :
  to_datetime d = inr t ->
  to_datetime d' = inr t' ->
  (String.leb (period_Q t) (period_Q t') = true <->
   (quarter_number t <= quarter_number t')%Z) /\
  ((quarter_number t <= quarter_number t')%Z <->
   (fst t < fst t' \/ (fst t = fst t' /\ (snd t - 1) / 3 <= (snd t' - 1) / 3))%Z).
Proof.
  destruct t as [y m], t' as [y' m']. intros Ht Ht'.
  destruct (to_datetime_range _ Ht) as (Hy & Hm & _).
  destruct (to_datetime_range _ Ht') as (Hy' & Hm' & _).
  split; [exact (period_Q_leb_iff Hy Hm Hy' Hm') |].
  unfold quarter_number; cbn [fst snd]. Z.div_mod_to_equations. lia.
Qed.

Lemma quarter_labels_sort_by_time_witness :
  to_datetime 202411 = inr (2024%Z, 11%Z) /\
  to_datetime 202502 = inr (2025%Z, 2%Z) /\
  (String.leb (period_Q (2024%Z, 11%Z)) (period_Q (2025%Z, 2%Z)) = true <->
   (quarter_number (2024%Z, 11%Z) <= quarter_number (2025%Z, 2%Z))%Z) /\
  ((quarter_number (2024%Z, 11%Z) <= quarter_number (2025%Z, 2%Z))%Z <->
   (fst (2024%Z, 11%Z) < fst (2025%Z, 2%Z) \/
    (fst (2024%Z, 11%Z) = fst (2025%Z, 2%Z) /\
     (snd (2024%Z, 11%Z) - 1) / 3 <= (snd (2025%Z, 2%Z) - 1) / 3))%Z).
Proof.
  split; [reflexivity |]. split; [reflexivity |].
  apply (@quarter_labels_sort_by_time 202411 202502 (2024%Z, 11%Z) (2025%Z, 2%Z));
    reflexivity.
Defined.

(* ------------------------------------------------------------------------- *)
(** ** The chart tables as a whole *)


(** X13.  The rows of each summed chart table stand in strictly ascending order
    of their labels (month then brand, year then ink type, quarter then
    price tier, month then colour type): no label occurs twice. *)
Theorem panel_rows_ascend (float_repr : Q -> string)
  (df : list scored_row) (selected_brands : list string) :
  let d := render float_repr df selected_brands in
  StronglySorted (fun a b : string * string => kleb a b = true /\ a <> b)
                 (map fst (monthly_sales d)) /\
  StronglySorted (fun a b : Z * string => kleb a b = true /\ a <> b)
                 (map fst (year_ink d)) /\
  StronglySorted (fun a b : string * string => kleb a b = true /\ a <> b)
                 (map fst (price_q d)) /\
  StronglySorted (fun a b : string * string => kleb a b = true /\ a <> b)
                 (map fst (c_trend d)).
Proof.
  cbv zeta. cbn [monthly_sales year_ink price_q c_trend render].
  repeat split; apply groupby_sum_labels_ascending.
Qed.

(** X14.  The quarterly and the yearly matrix have their periods in strictly
    ascending order down the rows and their brands in strictly ascending
    order across the columns. *)
Theorem pivot_labels_ascend (df : list scored_row) :
  StronglySorted (fun a b => String.leb a b = true /\ a <> b)
                 (index (q_data df)) /\
  StronglySorted (fun a b => String.leb a b = true /\ a <> b)
                 (header (q_data df)) /\
  StronglySorted (fun a b => (a <=? b)%Z = true /\ a <> b)
                 (index (y_data df)) /\
  StronglySorted (fun a b => String.leb a b = true /\ a <> b)
                 (header (y_data df)).
Proof.
  unfold q_data, y_data, pivot_sum, unstack. cbn [index header].
  repeat split;
    first [ exact (sort_unique_ascending (K := string) _)
          | exact (sort_unique_ascending (K := Z) _) ].
Qed.

(** X9.  Line 66: the options of the brand selector are the brands of the table,
    each once, in ascending order. *)
Theorem all_brands_ascending (df : list scored_row) :
  StronglySorted (fun a b => String.leb a b = true /\ a <> b) (all_brands df) /\
  forall b : string,
    In b (all_brands df) <-> exists r : scored_row, In r df /\ Brand r = b.
Proof.
  change (all_brands df)
    with (sort_unique (map (fun r : scored_row => Brand r) df)).
  split; [exact (sort_unique_ascending (K := string) _) |].
  intro b. rewrite In_sort_unique, in_map_iff.
  split; intros (r & H1 & H2); exists r; auto.
Qed.

(** X25.  Lines 172-173: the colour trend has at most two series, "Independent"
    and "Assorted". *)
Theorem c_trend_has_two_series (float_repr : Q -> string)
  (df : list scored_row) (selected_brands : list string)
  (month colour : string) (v : Q) :
  In ((month, colour), v) (c_trend (render float_repr df selected_brands)) ->
  colour = "Independent" \/ colour = "Assorted".
Proof.
  cbn [c_trend render]. intro Hin.
  apply (in_map fst) in Hin. cbn [fst] in Hin.
  rewrite groupby_sum_labels, In_sort_unique in Hin.
  apply in_map_iff in Hin. destruct Hin as (r & E & _).
  inversion E; subst. rewrite Color_Type_cases.
  destruct (existsb _ solid_colors); auto.
Qed.

Lemma c_trend_has_two_series_witness :
  let df := fst (snd (load_data_local (disk two_brand_sheet) EXCEL_FILE)) in
  In (("2024-01", "Assorted"), 10%Q)
     (c_trend (render one_digit_repr df ["Ohuhu"])) /\
  ("Assorted" = "Independent" \/ "Assorted" = "Assorted").
Proof.
  cbv zeta.
  assert (Hin : In (("2024-01", "Assorted"), 10%Q)
                   (c_trend (render one_digit_repr
                               (fst (snd (load_data_local (disk two_brand_sheet)
                                                          EXCEL_FILE)))
                               ["Ohuhu"]))) by (left; reflexivity).
  split; [exact Hin |].
  exact (@c_trend_has_two_series one_digit_repr _ ["Ohuhu"]
           "2024-01" "Assorted" 10%Q Hin).
Defined.

(* ------------------------------------------------------------------------- *)
(** ** The quarterly tables in time order *)

Lemma loaded_rows_parse (fs : filesystem) (file_path : string)
  (df : list scored_row) (total : nat) (r : scored_row) :
  snd (load_data_local fs file_path) = (df, total) ->
  In r df ->
  to_datetime (Date r) = inr (Date_Obj r) /\
  Quarter r = period_Q (Date_Obj r).
Proof.
  unfold load_data_local.
  destruct (load_data_body fs file_path) as [e | [df' total']] eqn:Hb;
    simpl; intros E Hin; inversion E; subst; [destruct Hin |].
  destruct (load_data_body_inr _ _ Hb) as (sh & rs & _ & Hrs & _ & Hdf).
  subst df. apply in_map_iff in Hin. destruct Hin as (r0 & <- & Hr0).
  apply mapM_derive_rows in Hrs. cbn [base score].
  clear Hb E. induction Hrs as [| raw r1 l l' (t & Ht & ->) _ IH];
    [destruct Hr0 |].
  destruct Hr0 as [<- | Hr0]; [| exact (IH Hr0)].
  split; [exact Ht | reflexivity].
Qed.

Lemma StronglySorted_nth {A : Type} (R : A -> A -> Prop) (l : list A)
  (i j : nat) (a b : A) :
  StronglySorted R l -> (i < j)%nat ->
  nth_error l i = Some a -> nth_error l j = Some b -> R a b.
Proof.
  intro Hs. revert i j. induction Hs as [| x t Hs IH Hall]; intros i j Hij Hi Hj.
  - destruct i; discriminate.
  - destruct j as [| j]; [lia |]. simpl in Hj.
    destruct i as [| i]; simpl in Hi.
    + inversion Hi; subst. rewrite Forall_forall in Hall.
      apply Hall. eapply nth_error_In; exact Hj.
    + apply (IH i j); [lia | assumption | assumption].
Qed.

(** X20.  On a loaded table the rows of the quarterly matrix, and so the rows of
    the year-over-year and share tables of lines 105-106, stand in the
    order of time: a row further down is the row of a later quarter. *)
Theorem quarterly_rows_in_time_order (fs : filesystem) (file_path : string)
  (df : list scored_row) (total : nat) (i j : nat) (qi qj : string) :
  snd (load_data_local fs file_path) = (df, total) ->
  (i < j)%nat ->
  nth_error (index (q_data df)) i = Some qi ->
  nth_error (index (q_data df)) j = Some qj ->
  exists ri rj : scored_row,
    In ri df /\ In rj df /\ Quarter ri = qi /\ Quarter rj = qj /\
    (quarter_number (Date_Obj ri) < quarter_number (Date_Obj rj))%Z.
Proof.
  intros Hl Hij Hi Hj.
  assert (Hsorted : StronglySorted
                      (fun a b => String.leb a b = true /\ a <> b)
                      (index (q_data df))).
  { unfold q_data, pivot_sum, unstack. cbn [index].
    exact (sort_unique_ascending (K := string) _). }
  destruct (StronglySorted_nth Hsorted Hij Hi Hj) as [Hle Hne].
  assert (Hrow : forall q, In q (index (q_data df)) ->
                   exists r : scored_row, In r df /\ Quarter r = q).
  { intros q Hq. unfold q_data, pivot_sum, unstack in Hq. cbn [index] in Hq.
    rewrite In_sort_unique in Hq.
    rewrite <- (map_map fst fst), groupby_sum_labels in Hq.
    apply in_map_iff in Hq. destruct Hq as ([q' b] & E & Hk).
    cbn [fst] in E. subst q'.
    rewrite In_sort_unique in Hk. apply in_map_iff in Hk.
    destruct Hk as (r & Er & Hr). exists r. split; [exact Hr |].
    inversion Er; reflexivity. }
  destruct (Hrow qi (nth_error_In _ _ Hi)) as (ri & Hri & Eqi).
  destruct (Hrow qj (nth_error_In _ _ Hj)) as (rj & Hrj & Eqj).
  exists ri, rj. repeat (split; [assumption |]).
  destruct (@loaded_rows_parse fs file_path df total ri Hl Hri) as [Pi Qi].
  destruct (@loaded_rows_parse fs file_path df total rj Hl Hrj) as [Pj Qj].
  destruct (Date_Obj ri) as [y m] eqn:Di, (Date_Obj rj) as [y' m'] eqn:Dj.
  destruct (to_datetime_range _ Pi) as (Hy & Hm & _).
  destruct (to_datetime_range _ Pj) as (Hy' & Hm' & _).
  rewrite <- Eqi, <- Eqj, Qi, Qj in Hle, Hne.
  apply (period_Q_leb_iff Hy Hm Hy' Hm') in Hle.
  destruct (Z.eq_dec (quarter_number (y, m)) (quarter_number (y', m')))
    as [E | N]; [| lia].
  elim Hne.
  rewrite (period_Q_quarter_label y Hm), (period_Q_quarter_label y' Hm'), E.
  reflexivity.
Qed.

Lemma quarterly_rows_in_time_order_witness :
  let df := fst (snd (load_data_local (disk six_quarter_sheet) EXCEL_FILE)) in
  snd (load_data_local (disk six_quarter_sheet) EXCEL_FILE) = (df, 6%nat) /\
  (3 < 4)%nat /\
  nth_error (index (q_data df)) 3 = Some "2024Q4" /\
  nth_error (index (q_data df)) 4 = Some "2025Q1" /\
  exists ri rj : scored_row,
    In ri df /\ In rj df /\ Quarter ri = "2024Q4" /\ Quarter rj = "2025Q1" /\
    (quarter_number (Date_Obj ri) < quarter_number (Date_Obj rj))%Z.
Proof.
  cbv zeta. split; [reflexivity |]. split; [lia |].
  split; [reflexivity |]. split; [reflexivity |].
  apply (@quarterly_rows_in_time_order (disk six_quarter_sheet) EXCEL_FILE
           (fst (snd (load_data_local (disk six_quarter_sheet) EXCEL_FILE)))
           6%nat 3%nat 4%nat "2024Q4" "2025Q1"); [reflexivity | lia | |];
    reflexivity.
Defined.
